(** * dv01_dbt_helper: configuration resolution for the dbt runner

  A shallow embedding of
  [src/dbt-bigquery/src/dbt/adapters/bigquery/dv01_dbt_helper.py]:
  the secret, taxonomy and document-store clients, the recursive
  configuration merge and the formatting of the dbt invocation string.

  Part I holds the definitions: the values [response.json()] produces,
  the merge on values and on a store of mutable objects, the text
  operations, the three client classes over abstract collaborators, and
  a scripted world to run them on.  Part II holds the properties. *)

From stdpp Require Import gmap strings list fin_maps.
From stdpp Require Import pretty.
From Stdlib Require Import ZArith Floats.SpecFloat Strings.Ascii.

#[local] Set Warnings "-register-all,-clear-no-such-hyp".
#[local] Open Scope string_scope.
#[local] Open Scope list_scope.
#[local] Open Scope nat_scope.

(** * Part I: definitions *)

(** ** JSON values as Python sees them *)

(** The leaves of a decoded JSON document: [None], [bool], [int], [float]
  and [str].  Strings are UTF-8 byte strings. *)
Inductive atom :=
| ANull
| ABool (b : bool)
| AInt (z : Z)
| AFloat (f : spec_float)
| AStr (s : string).

(** A decoded document.  A Python [dict] decoded from JSON has string keys,
  each at most once; comparison of dicts ignores insertion order, so a
  finite map is the value of a dict. *)
Inductive json :=
| JAtom (a : atom)
| JList (l : list json)
| JDict (m : gmap string json).

Coercion JAtom : atom >-> json.

Definition JNull : json := JAtom ANull.
Definition JStr (s : string) : json := JAtom (AStr s).
Definition JInt (z : Z) : json := JAtom (AInt z).
Definition JBool (b : bool) : json := JAtom (ABool b).

(** Number of constructors of a document; the measure for induction. *)
Fixpoint json_size (v : json) : nat :=
  match v with
  | JAtom _ => 1
  | JList l => S (foldr (λ x n, json_size x + n) 0 l)
  | JDict m => S (map_fold (λ _ x n, json_size x + n) 0 m)
  end.

(** Python truthiness ([bool(v)], as used by [not v] and [a or b]). *)
Definition truthy (v : json) : bool :=
  match v with
  | JAtom ANull => false
  | JAtom (ABool b) => b
  | JAtom (AInt z) => negb (z =? 0)%Z
  | JAtom (AFloat (S754_zero _)) => false
  | JAtom (AFloat _) => true
  | JAtom (AStr s) => negb (String.eqb s EmptyString)
  | JList l => negb (Nat.eqb (length l) 0)
  | JDict m => negb (Nat.eqb (size m) 0)
  end.

Definition is_dict (v : json) : bool :=
  match v with JDict _ => true | _ => false end.

(** ** Exceptions *)

(** The texts of the [ValueError]s this module raises, one constructor per
    [raise] statement, with the values its f-string interpolates. *)
Inductive message :=
| MsgProjectUnset                              (* line 10 *)
| MsgDlcKeyMissing                             (* line 36 *)
| MsgNoTaxonomyTag (platform_tag : json)       (* line 77 *)
| MsgDmsKeyMissing                             (* line 89 *)
| MsgNoTableName (job_id : string)             (* line 132 *)
| MsgNoJobConfig (job_id : string)             (* line 149 *)
| MsgNoSharedConfig (taxonomy_tag_id : json).  (* line 181 *)

(** What a call can raise: the module's own [ValueError]s,
    [requests.HTTPError] from [raise_for_status], the decoding error of
    [response.json()], the errors of Python's dynamic typing, and whatever
    a collaborator (transport, secret store) raises by itself. *)
Inductive exn :=
| ValueError (m : message)
| HTTPError (status_code : Z)
| JSONDecodeError
| AttributeError
| TypeError
| KeyError
| IndexError
| CollaboratorError (what : string).

(** ** Python operations on documents *)

(** Results that may be exceptions are sums; [x <-? e ;; k] continues with
    the value of [e] or passes its exception on. *)
Definition ebind {A B : Type} (x : exn + A) (k : A → exn + B) : exn + B :=
  match x with
  | inl e => inl e
  | inr a => k a
  end.

Notation "x <-? e ;; k" := (ebind e (λ x, k))
  (at level 100, e at next level, right associativity).

(** [v.get(key, dflt)]: only a dict has [get]. *)
Definition py_get (v : json) (key : string) (dflt : json) : exn + json :=
  match v with
  | JDict m => inr (default dflt (m !! key))
  | _ => inl AttributeError
  end.

(** [v[key]] for a string key, on a value already known to have [get]. *)
Definition py_getitem (v : json) (key : string) : exn + json :=
  match v with
  | JDict m => match m !! key with Some x => inr x | None => inl KeyError end
  | _ => inl TypeError
  end.

(** A byte of the form [10xxxxxx] continues a UTF-8 character. *)
Definition is_continuation (c : ascii) : bool :=
  (128 <=? nat_of_ascii c) && (nat_of_ascii c <? 192).

(** The characters of a [str], each as its UTF-8 bytes. *)
Fixpoint utf8_chars (s : string) : list string :=
  match s with
  | EmptyString => []
  | String c s' =>
      match utf8_chars s' with
      | String c' tail :: rest =>
          if is_continuation c' then String c (String c' tail) :: rest
          else String c EmptyString :: String c' tail :: rest
      | rest => String c EmptyString :: rest
      end
  end.

(** [v[0]].  The keys of a decoded dict are strings, so [0] is no key. *)
Definition py_first (v : json) : exn + json :=
  match v with
  | JList (x :: _) => inr x
  | JList [] => inl IndexError
  | JDict _ => inl KeyError
  | JAtom (AStr s) =>
      match utf8_chars s with
      | c :: _ => inr (JStr c)
      | [] => inl IndexError
      end
  | JAtom _ => inl TypeError
  end.

(** [for x in v]: the elements of a list, the keys of a dict (their order
    is the map's, not the insertion order), the characters of a string. *)
Definition py_iter (v : json) : exn + list json :=
  match v with
  | JList l => inr l
  | JDict m => inr (JStr <$> (map_to_list m).*1)
  | JAtom (AStr s) => inr (JStr <$> utf8_chars s)
  | JAtom _ => inl TypeError
  end.

(** Only the leaves are hashable. *)
Definition py_hashable (v : json) : exn + atom :=
  match v with
  | JAtom a => inr a
  | _ => inl TypeError
  end.

(** The number a numeric leaf stands for: [m * 2^e], or a special float. *)
Inductive number :=
| Dyadic (m e : Z)
| PosInf
| NegInf
| NaN.

Definition number_of (a : atom) : option number :=
  match a with
  | ABool b => Some (Dyadic (if b then 1 else 0) 0)
  | AInt z => Some (Dyadic z 0)
  | AFloat (S754_zero _) => Some (Dyadic 0 0)
  | AFloat (S754_infinity s) => Some (if s then NegInf else PosInf)
  | AFloat S754_nan => Some NaN
  | AFloat (S754_finite s m e) => Some (Dyadic (if s then Z.neg m else Z.pos m) e)
  | _ => None
  end.

Definition number_eqb (x y : number) : bool :=
  match x, y with
  | Dyadic m1 e1, Dyadic m2 e2 =>
      let e := Z.min e1 e2 in
      (m1 * 2 ^ (e1 - e) =? m2 * 2 ^ (e2 - e))%Z
  | PosInf, PosInf | NegInf, NegInf | NaN, NaN => true
  | _, _ => false
  end.

(** Equality of dict keys: [True], [1] and [1.0] are one key; the decoder's
    [NaN] is one object, found again by identity. *)
Definition atom_key_eqb (a b : atom) : bool :=
  match number_of a, number_of b with
  | Some x, Some y => number_eqb x y
  | None, None =>
      match a, b with
      | ANull, ANull => true
      | AStr s, AStr t => String.eqb s t
      | _, _ => false
      end
  | _, _ => false
  end.

(** A dict with hashable keys, in insertion order: [d[key] = value] and
    [d.get(key)]. *)
Fixpoint dict_set (key : atom) (value : json) (d : list (atom * json))
    : list (atom * json) :=
  match d with
  | [] => [(key, value)]
  | (k, v) :: rest =>
      if atom_key_eqb k key then (k, value) :: rest
      else (k, v) :: dict_set key value rest
  end.

Fixpoint dict_get (key : atom) (d : list (atom * json)) : option json :=
  match d with
  | [] => None
  | (k, v) :: rest => if atom_key_eqb k key then Some v else dict_get key rest
  end.

(** ** The configuration merge *)

(** [deep_merge_value base override] is the body of
    [_deep_merge_with_priority] for a dict [base]: the loop over
    [override.items()] folds over the entries of the override, [merged]
    starting as the copy of [base].  The recursion descends into the
    override value, which is why the override is taken as a document; on a
    document that is no dict there are no items. *)
Fixpoint deep_merge_value (base : gmap string json) (override : json)
    {struct override} : gmap string json :=
  match override with
  | JDict o =>
      map_fold (λ key override_value merged,
        match merged !! key, override_value with
        | Some (JDict b), JDict _ =>
            <[key := JDict (deep_merge_value b override_value)]> merged
        | _, _ => <[key := override_value]> merged
        end) base o
  | _ => base
  end.

(** [_deep_merge_with_priority] on two mappings. *)
Definition deep_merge (base override : gmap string json) : gmap string json :=
  deep_merge_value base (JDict override).

(** One turn of the loop, with the recursive call through [deep_merge]. *)
Definition merge_entry (key : string) (override_value : json)
    (merged : gmap string json) : gmap string json :=
  match merged !! key, override_value with
  | Some (JDict b), JDict o => <[key := JDict (deep_merge b o)]> merged
  | _, _ => <[key := override_value]> merged
  end.

(** What the merge holds at a key, in terms of the two inputs. *)
Definition merged_at (b o : option json) : option json :=
  match o with
  | None => b
  | Some ov =>
      match b, ov with
      | Some (JDict bm), JDict om => Some (JDict (deep_merge bm om))
      | _, _ => Some ov
      end
  end.

(** [_deep_merge_with_priority] on any two documents (lines 153-166): a
    list has [copy] but takes no string key, a leaf has no [copy], and only
    a dict has [items]. *)
Definition _deep_merge_with_priority (base override : json) : exn + json :=
  match base with
  | JDict b =>
      match override with
      | JDict o => inr (JDict (deep_merge b o))
      | _ => inl AttributeError
      end
  | JList l =>
      match override with
      | JDict o => if Nat.eqb (size o) 0 then inr (JList l) else inl TypeError
      | _ => inl AttributeError
      end
  | JAtom _ => inl AttributeError
  end.

(** ** The merge over a store of objects *)

(** Python dicts and lists hold references.  To speak about mutation, the
    same function is written over a store: addresses are naturals, a dict
    maps its keys to addresses. *)
Inductive obj :=
| OAtom (a : atom)
| OList (items : list nat)
| ODict (entries : gmap string nat).

(** A new object is placed at an address the store does not use. *)
Definition alloc (o : obj) (h : gmap nat obj) : nat * gmap nat obj :=
  let a := fresh (dom h) in (a, <[a := o]> h).

(** [isinstance(x, dict)] for the object at an address. *)
Definition is_dict_at (h : gmap nat obj) (a : nat) : bool :=
  match h !! a with Some (ODict _) => true | _ => false end.

(** [merged[key] = value]: the dict object at [merged] is updated in place. *)
Definition setitem (merged : nat) (key : string) (value : nat)
    (h : gmap nat obj) : option ((exn + unit) * gmap nat obj) :=
  match h !! merged with
  | Some (ODict m) => Some (inr (), <[merged := ODict (<[key := value]> m)]> h)
  | _ => None
  end.

(** The body of the loop (lines 157-164); [rec] is the recursive call. *)
Definition merge_item
    (rec : nat → nat → gmap nat obj → option ((exn + nat) * gmap nat obj))
    (merged : nat) (key : string) (override_value : nat) (h : gmap nat obj)
    : option ((exn + unit) * gmap nat obj) :=
  match h !! merged with
  | Some (ODict m) =>
      match m !! key with
      | Some merged_value =>
          if is_dict_at h merged_value && is_dict_at h override_value then
            match rec merged_value override_value h with
            | Some (inr r, h') => setitem merged key r h'
            | Some (inl e, h') => Some (inl e, h')
            | None => None
            end
          else setitem merged key override_value h
      | None => setitem merged key override_value h
      end
  | _ => None
  end.

(** [for key, override_value in override.items(): ...] *)
Fixpoint for_items
    (body : string → nat → gmap nat obj → option ((exn + unit) * gmap nat obj))
    (items : list (string * nat)) (h : gmap nat obj)
    : option ((exn + unit) * gmap nat obj) :=
  match items with
  | [] => Some (inr (), h)
  | (key, value) :: rest =>
      match body key value h with
      | Some (inr _, h') => for_items body rest h'
      | other => other
      end
  end.

(** [_deep_merge_with_priority] on references.  [None] is the absence of a
    result: the fuel ran out, or an address is not in the store.  A list
    has [copy] but neither string keys nor item assignment by key, other
    objects have no [copy], and only a dict has [items]. *)
Fixpoint deep_merge_obj (fuel : nat) (base override : nat) (h : gmap nat obj)
    : option ((exn + nat) * gmap nat obj) :=
  match fuel with
  | 0 => None
  | S fuel' =>
      match h !! base with
      | Some (ODict b) =>
          let '(merged, h1) := alloc (ODict b) h in
          match h1 !! override with
          | Some (ODict o) =>
              match for_items (merge_item (deep_merge_obj fuel') merged)
                      (map_to_list o) h1 with
              | Some (inr _, h2) => Some (inr merged, h2)
              | Some (inl e, h2) => Some (inl e, h2)
              | None => None
              end
          | Some _ => Some (inl AttributeError, h1)
          | None => None
          end
      | Some (OList items) =>
          let '(merged, h1) := alloc (OList items) h in
          match h1 !! override with
          | Some (ODict o) =>
              match map_to_list o with
              | [] => Some (inr merged, h1)
              | _ :: _ => Some (inl TypeError, h1)
              end
          | Some _ => Some (inl AttributeError, h1)
          | None => None
          end
      | Some (OAtom _) => Some (inl AttributeError, h)
      | None => None
      end
  end.

(** [repr X h a v]: in the store [h] the object at [a] has the value [v],
    and reading it visits no address of [X]. *)
Inductive repr (X : gset nat) (h : gmap nat obj) : nat → json → Prop :=
| repr_atom a x :
    a ∉ X → h !! a = Some (OAtom x) → repr X h a (JAtom x)
| repr_list a items l :
    a ∉ X → h !! a = Some (OList items) →
    Forall2 (repr X h) items l → repr X h a (JList l)
| repr_dict a d m :
    a ∉ X → h !! a = Some (ODict d) →
    (∀ k, option_Forall2 (repr X h) (d !! k) (m !! k)) →
    repr X h a (JDict m).

(** The object at [a] has the value [v]. *)
Definition represents (h : gmap nat obj) (a : nat) (v : json) : Prop :=
  repr ∅ h a v.

(** What the merge over the store does with a given amount of fuel; the
    statement that is proved by induction on the fuel. *)
Definition merge_ok (n : nat) : Prop :=
  ∀ (X : gset nat) (h : gmap nat obj) (base override : nat)
    (jb jo : gmap string json),
    X ⊆ dom h →
    repr X h base (JDict jb) → repr X h override (JDict jo) →
    json_size (JDict jo) ≤ n →
    ∃ merged h',
      deep_merge_obj n base override h = Some (inr merged, h')
      ∧ h ⊆ h'
      ∧ repr X h' merged (JDict (deep_merge jb jo)).

(** A store to run the merge on: two nested configurations sharing a leaf. *)
Definition sample_store : gmap nat obj :=
  {[ 0 := OAtom (AInt 1); 1 := OAtom (AInt 2);
     2 := ODict {[ "a" := 0 ]}; 3 := ODict {[ "b" := 1 ]};
     4 := ODict {[ "cfg" := 2; "x" := 0 ]};
     5 := ODict {[ "cfg" := 3 ]} ]}.

Definition sample_base : gmap string json :=
  {[ "cfg" := JDict {[ "a" := JInt 1 ]}; "x" := JInt 1 ]}.

Definition sample_override : gmap string json :=
  {[ "cfg" := JDict {[ "b" := JInt 2 ]} ]}.

(** The store the merge of the two sample configurations leaves. *)
Definition sample_merged_store : gmap nat obj :=
  match deep_merge_obj 3 4 5 sample_store with
  | Some (_, h') => h'
  | None => ∅
  end.

(** ** Text *)

(** [s.replace(old, new)] for one-character [old] and [new].  The bytes of
    a multi-byte UTF-8 character are all above 127, so replacing an ASCII
    byte replaces exactly the occurrences of that character. *)
Fixpoint str_replace (old new : ascii) (s : string) : string :=
  match s with
  | EmptyString => EmptyString
  | String c s' =>
      String (if Ascii.eqb c old then new else c) (str_replace old new s')
  end.

(** The double quote, which the f-string of line 104 writes escaped. *)
Definition dquote : string := String "034"%char EmptyString.

(** [repr] of floats, lists and dicts is the interpreter's; the module
    only passes such values on to an f-string. *)
Class PyRuntime := { py_repr : json → string }.

(** [str(v)], as an f-string field formats a value. *)
Definition py_str `{PyRuntime} (v : json) : string :=
  match v with
  | JAtom (AStr s) => s
  | JAtom ANull => "None"
  | JAtom (ABool b) => if b then "True" else "False"
  | JAtom (AInt z) => pretty z
  | _ => py_repr v
  end.



(** ** Collaborators *)

(** What [requests] hands back: a status and a body that decodes to a
    document or does not. *)
Record response := { status_code : Z; body : option json }.

(** The environment, the secret store and the two HTTP services, as
    functions of a world they may change.  [access_secret_version] returns
    the payload already decoded as UTF-8. *)
Class Collaborators (World : Type) := {
  os_getenv : string → World → option string;
  SecretManagerServiceClient : World → (exn + unit) * World;
  access_secret_version : string → World → (exn + string) * World;
  requests_get :
    string → list (string * string) → World → (exn + response) * World;
  requests_post :
    string → json → list (string * string) → World → (exn + response) * World
}.

(** What a run does that can be observed from outside. *)
Inductive event :=
| SecretAccess (name : string)
| HttpGet (url : string) (headers : list (string * string))
| HttpPost (url : string) (payload : json) (headers : list (string * string))
| Print (text : string).

(** The remote services a call goes to: [requests.post] is only used for
    the document store, [requests.get] only for the taxonomy service. *)
Inductive service := DocumentStore | TaxonomyService.

#[global] Instance service_eq_dec : EqDecision service.
Proof. solve_decision. Defined.

Definition service_of (e : event) : option service :=
  match e with
  | HttpPost _ _ _ => Some DocumentStore
  | HttpGet _ _ => Some TaxonomyService
  | _ => None
  end.

Definition calls_of (l : list event) : list service := omap service_of l.

Definition taxonomy_calls (l : list event) : nat :=
  length (filter (λ c, c = TaxonomyService) (calls_of l)).

(** The three shapes the service calls of one resolution can take. *)
Definition call_pattern (c : list service) : Prop :=
  c = [DocumentStore]
  ∨ c = [DocumentStore; TaxonomyService]
  ∨ c = [DocumentStore; TaxonomyService; DocumentStore].

Definition returned {A : Type} (r : exn + A) : Prop :=
  match r with inr _ => True | inl _ => False end.

(** The requests to the document store among the events: URL, body and
    headers of each [requests.post]. *)
Definition post_of (e : event)
    : option (string * json * list (string * string)) :=
  match e with
  | HttpPost url payload headers => Some (url, payload, headers)
  | _ => None
  end.

Definition posts_of (l : list event)
    : list (string * json * list (string * string)) :=
  omap post_of l.

(** The class attributes [DLCTaxonomyClient.BASE_URL] and
    [DMSClient.BASE_URL], read from the environment when the module is
    loaded. *)
Record module_constants := {
  DLC_BASE_URL : option string;
  DMS_BASE_URL : string
}.

Definition opt_str (o : option string) : string := default "None" o.

Definition load_module {World : Type} `{!Collaborators World} (w : World)
    : module_constants :=
  {| DLC_BASE_URL := os_getenv "DLC_BASE_URI" w;
     DMS_BASE_URL := opt_str (os_getenv "DMS_BASE_URI" w)
                     +:+ "/documents/get?keyed=true&json=true" |}.

Record SecretManagerClient := { project_id : string }.

Record DLCTaxonomyClient := {
  dlc_api_key : string;
  dlc_user_agent : string;
  dlc_headers : list (string * string);
  _taxonomy_cache : option (list (atom * json))
}.

Record DMSClient := {
  is_prod : bool;
  dms_api_key : string;
  dms_headers : list (string * string)
}.

(** A string argument that may be [None]; [None] and the empty string are
    falsy. *)
Definition str_truthy (o : option string) : bool :=
  match o with
  | Some s => negb (String.eqb s EmptyString)
  | None => false
  end.

(** The body of a document-store search (lines 137-142 and 169-174). *)
Definition search_request (id_type : string) (value : json)
    (document_type : string) (is_prod : bool) : json :=
  JDict {[ "externalIds" :=
             JList [JDict {[ "externalIdType" := JStr id_type;
                             "value" := value ]}];
           "documentType" := JStr document_type;
           "includeUnreleased" := JBool (negb is_prod);
           "latestOnly" := JBool true ]}.

(** The dict comprehension of lines 58-62, tag by tag: the condition, then
    the key, then the value, then the store under the key's hash. *)
Fixpoint taxonomy_mapping (taxonomy : list json) (acc : list (atom * json))
    : exn + list (atom * json) :=
  match taxonomy with
  | [] => inr acc
  | tag :: rest =>
      category <-? py_get tag "category" JNull ;;
      match category with
      | JAtom (AStr "PIPELINE_PLATFORM") =>
          name <-? py_getitem tag "name" ;;
          id <-? py_getitem tag "id" ;;
          key <-? py_hashable name ;;
          taxonomy_mapping rest (dict_set key id acc)
      | _ => taxonomy_mapping rest acc
      end
  end.

(** The test of line 61 as a boolean. *)
Definition is_platform_category (category : json) : bool :=
  match category with
  | JAtom (AStr s) => String.eqb s "PIPELINE_PLATFORM"
  | _ => false
  end.

(** The state of a run: the world and the events so far. *)
Record state (World : Type) := { world : World; log : list event }.
Arguments world {World} _.
Arguments log {World} _.

(** ** The clients *)

Section Clients.
Context {World : Type} `{!Collaborators World} `{!PyRuntime}.
Context (constants : module_constants).

(** A computation reads and changes the state and returns a value or
    raises. *)
Definition M (A : Type) : Type := state World → (exn + A) * state World.

Definition ret {A : Type} (a : A) : M A := λ s, (inr a, s).

Definition raise {A : Type} (e : exn) : M A := λ s, (inl e, s).

Definition bind {A B : Type} (m : M A) (k : A → M B) : M B :=
  λ s, match m s with
       | (inr a, s') => k a s'
       | (inl e, s') => (inl e, s')
       end.

Notation "x <- m ;; k" := (bind m (λ x, k))
  (at level 100, m at next level, right associativity).

(** A pure step that may raise. *)
Definition lift {A : Type} (x : exn + A) : M A := λ s, (x, s).

(** A call to a collaborator: the event is recorded, the world moves on. *)
Definition call {A : Type} (e : event) (f : World → (exn + A) * World) : M A :=
  λ s, let (r, w) := f (world s) in (r, {| world := w; log := log s ++ [e] |}).

Definition getenv (name : string) : M (option string) :=
  λ s, (inr (os_getenv name (world s)), s).

(** [print(text)] *)
Definition print (text : string) : M unit :=
  λ s, (inr (), {| world := world s; log := log s ++ [Print text] |}).

(** [response.raise_for_status()]: statuses 400 to 599 raise. *)
Definition raise_for_status (r : response) : M unit :=
  if ((400 <=? status_code r) && (status_code r <? 600))%Z
  then raise (HTTPError (status_code r))
  else ret ().

(** [response.json()] *)
Definition response_json (r : response) : M json :=
  match body r with
  | Some v => ret v
  | None => raise JSONDecodeError
  end.

(** *** SecretManagerClient (lines 6-25) *)

Definition SecretManagerClient_init (project : option string)
    : M SecretManagerClient :=
  project <- (if str_truthy project then ret project
              else getenv "GCP_TARGET_PROJECT") ;;
  match project with
  | Some p =>
      if String.eqb p EmptyString then raise (ValueError MsgProjectUnset)
      else
        _ <- (λ s, let (r, w) := SecretManagerServiceClient (world s) in
                   (r, {| world := w; log := log s |})) ;;
        ret {| project_id := p |}
  | None => raise (ValueError MsgProjectUnset)
  end.

Definition get_secret (self : SecretManagerClient) (secret_name : string)
    : M string :=
  let secret_path :=
    "projects/" +:+ project_id self +:+ "/secrets/" +:+ secret_name
    +:+ "/versions/latest" in
  call (SecretAccess secret_path) (access_secret_version secret_path).

(** [api_key or SecretManagerClient().get_secret(name)] *)
Definition api_key_or_secret (api_key : option string) (name : string)
    : M string :=
  match api_key with
  | Some k =>
      if String.eqb k EmptyString then
        sm <- SecretManagerClient_init None ;; get_secret sm name
      else ret k
  | None => sm <- SecretManagerClient_init None ;; get_secret sm name
  end.

(** *** DLCTaxonomyClient (lines 28-79) *)

Definition DLCTaxonomyClient_init (api_key : option string)
    (user_agent : string) : M DLCTaxonomyClient :=
  key <- api_key_or_secret api_key "DLC_API_KEY" ;;
  if String.eqb key EmptyString then raise (ValueError MsgDlcKeyMissing)
  else
    ret {| dlc_api_key := key;
           dlc_user_agent := user_agent;
           dlc_headers := [("Authorization", "Bearer " +:+ key);
                           ("User-Agent", user_agent);
                           ("Content-Type", "application/json")];
           _taxonomy_cache := None |}.

Definition fetch_taxonomy_tags (self : DLCTaxonomyClient)
    : M (list (atom * json)) :=
  let url := opt_str (DLC_BASE_URL constants) +:+ "/taxonomy" in
  response <- call (HttpGet url (dlc_headers self))
                   (requests_get url (dlc_headers self)) ;;
  _ <- raise_for_status response ;;
  taxonomy <- response_json response ;;
  tags <- lift (py_iter taxonomy) ;;
  lift (taxonomy_mapping tags []).

Definition set_taxonomy_cache (self : DLCTaxonomyClient)
    (tags : list (atom * json)) : DLCTaxonomyClient :=
  {| dlc_api_key := dlc_api_key self;
     dlc_user_agent := dlc_user_agent self;
     dlc_headers := dlc_headers self;
     _taxonomy_cache := Some tags |}.

(** [self._taxonomy_cache.get(platform_tag)], then the test against
    [None]: an absent tag and a tag whose id is [null] both raise. *)
Definition lookup_tag (tags : list (atom * json)) (platform_tag : json)
    : exn + json :=
  key <-? py_hashable platform_tag ;;
  match dict_get key tags with
  | Some (JAtom ANull) | None => inl (ValueError (MsgNoTaxonomyTag platform_tag))
  | Some taxonomy_tag_id => inr taxonomy_tag_id
  end.

(** The method changes [self]; the instance it leaves is returned next to
    the result, also when it raises. *)
Definition get_taxonomy_tag_id (self : DLCTaxonomyClient) (platform_tag : json)
    (s : state World) : (exn + json) * DLCTaxonomyClient * state World :=
  match _taxonomy_cache self with
  | None =>
      match fetch_taxonomy_tags self s with
      | (inr tags, s') =>
          (lookup_tag tags platform_tag, set_taxonomy_cache self tags, s')
      | (inl e, s') => (inl e, self, s')
      end
  | Some tags => (lookup_tag tags platform_tag, self, s)
  end.

(** Calls of [get_taxonomy_tag_id], one after the other, on one instance;
    the caller goes on after an exception. *)
Fixpoint get_taxonomy_tag_ids (self : DLCTaxonomyClient)
    (platform_tags : list json) (s : state World)
    : list (exn + json) * DLCTaxonomyClient * state World :=
  match platform_tags with
  | [] => ([], self, s)
  | platform_tag :: rest =>
      let '(r, self', s') := get_taxonomy_tag_id self platform_tag s in
      let '(rs, self'', s'') := get_taxonomy_tag_ids self' rest s' in
      (r :: rs, self'', s'')
  end.

(** *** DMSClient (lines 82-183) *)

Definition DMSClient_init (api_key : option string) : M DMSClient :=
  target <- getenv "GCP_TARGET_PROJECT" ;;
  key <- api_key_or_secret api_key "DMS_API_KEY" ;;
  if String.eqb key EmptyString then raise (ValueError MsgDmsKeyMissing)
  else
    ret {| is_prod := bool_decide (target = Some "foundations-prd-1sm9");
           dms_api_key := key;
           dms_headers := [("api-key", key);
                           ("Content-Type", "application/json")] |}.

(** Lines 144-151, shared by the two searches: the request, the status,
    the records, the first record's [json] field. *)
Definition search_documents (self : DMSClient) (request : json)
    (not_found : message) : M json :=
  response <- call (HttpPost (DMS_BASE_URL constants) request (dms_headers self))
                   (requests_post (DMS_BASE_URL constants) request
                      (dms_headers self)) ;;
  _ <- raise_for_status response ;;
  records <- response_json response ;;
  if negb (truthy records) then raise (ValueError not_found)
  else
    record <- lift (py_first records) ;;
    lift (py_get record "json" (JDict ∅)).

Definition _fetch_job_config (self : DMSClient) (job_id : string)
    (is_prod : bool) : M json :=
  search_documents self
    (search_request "JobId" (JStr job_id) "PipelineJob" is_prod)
    (MsgNoJobConfig job_id).

Definition _fetch_shared_platform_config (self : DMSClient)
    (taxonomy_tag_id : json) (is_prod : bool) : M json :=
  search_documents self
    (search_request "PipelinePlatformId" taxonomy_tag_id "SharedPipelineJob"
       is_prod)
    (MsgNoSharedConfig taxonomy_tag_id).

Definition no_platform_tag_warning (job_id : string) : string :=
  "Warning: No platformTag found in job config for jobId " +:+ job_id
  +:+ ". Using job config only.".

(** Lines 116-128 of [_fetch_model_by_job_id]: the configuration the model
    is read from. *)
Definition merged_config_of (self : DMSClient) (job_id : string)
    (is_prod : bool) : M json :=
  job_config <- _fetch_job_config self job_id is_prod ;;
  platform_tag <- lift (py_get job_config "platformTag" JNull) ;;
  if negb (truthy platform_tag) then
    _ <- print (no_platform_tag_warning job_id) ;;
    ret job_config
  else
    dlc_client <- DLCTaxonomyClient_init None "Foundations DBT Runner" ;;
    taxonomy_tag_id <-
      (λ s, let '(r, _, s') := get_taxonomy_tag_id dlc_client platform_tag s in
            (r, s')) ;;
    shared_config <- _fetch_shared_platform_config self taxonomy_tag_id is_prod ;;
    lift (_deep_merge_with_priority shared_config job_config).

(** Lines 130-134: the model of a configuration. *)
Definition model_of_config (job_id : string) (merged_config : json) : M json :=
  model <- lift (py_get merged_config "foundations-table-name" JNull) ;;
  if negb (truthy model) then raise (ValueError (MsgNoTableName job_id))
  else ret model.

Definition _fetch_model_by_job_id (self : DMSClient) (job_id : string)
    (is_prod : bool) : M json :=
  merged_config <- merged_config_of self job_id is_prod ;;
  model_of_config job_id merged_config.

(** The f-string of line 104. *)
Definition invocation (model_name pool_name job_id : string) : string :=
  "+" +:+ model_name +:+ " --vars '{" +:+ dquote +:+ "pool_name" +:+ dquote
  +:+ ": " +:+ dquote +:+ pool_name +:+ dquote +:+ ", " +:+ dquote
  +:+ "scala_job_id" +:+ dquote +:+ ": " +:+ dquote +:+ job_id +:+ dquote
  +:+ "}'".

Definition fetch_model_and_pool_name (self : DMSClient) (job_id : string)
    : M string :=
  model_name <- _fetch_model_by_job_id self job_id (is_prod self) ;;
  let pool_name := str_replace "/" "_" job_id in
  ret (invocation (py_str model_name) pool_name job_id).

(** Top-level resolutions, one after the other, on one client. *)
Fixpoint fetch_models_and_pool_names (self : DMSClient) (job_ids : list string)
    (s : state World) : list (exn + string) * state World :=
  match job_ids with
  | [] => ([], s)
  | job_id :: rest =>
      let (r, s') := fetch_model_and_pool_name self job_id s in
      let (rs, s'') := fetch_models_and_pool_names self rest s' in
      (r :: rs, s'')
  end.

End Clients.

(** ** The error kinds of the specification *)

(** The specification names four kinds of failure.  Read over the code,
    each [raise] statement and [raise_for_status] falls under one of them;
    the errors of dynamic typing and of the collaborators under none. *)
Inductive error_kind := ConfigError | NotFoundError | UpstreamError | ValidationError.

Definition spec_error_kind (e : exn) : option error_kind :=
  match e with
  | ValueError MsgProjectUnset
  | ValueError MsgDlcKeyMissing
  | ValueError MsgDmsKeyMissing => Some ConfigError
  | ValueError (MsgNoTaxonomyTag _)
  | ValueError (MsgNoJobConfig _)
  | ValueError (MsgNoSharedConfig _) => Some NotFoundError
  | ValueError (MsgNoTableName _) => Some ValidationError
  | HTTPError _ => Some UpstreamError
  | _ => None
  end.

(** ** A scripted world *)

(** A world to run the clients on: the environment and the secrets are
    tables, the two services answer from queues of prepared results. *)
Record script := {
  env : list (string * string);
  secrets : list (string * string);
  gets : list (exn + response);
  posts : list (exn + response)
}.

Fixpoint assoc (key : string) (table : list (string * string)) : option string :=
  match table with
  | [] => None
  | (k, v) :: rest => if String.eqb k key then Some v else assoc key rest
  end.

#[global] Instance scripted : Collaborators script := {|
  os_getenv name w := assoc name (env w);
  SecretManagerServiceClient w := (inr (), w);
  access_secret_version path w :=
    (match assoc path (secrets w) with
     | Some v => inr v
     | None => inl (CollaboratorError "NotFound")
     end, w);
  requests_get _ _ w :=
    match gets w with
    | r :: rest =>
        (r, {| env := env w; secrets := secrets w; gets := rest; posts := posts w |})
    | [] => (inl (CollaboratorError "ConnectionError"), w)
    end;
  requests_post _ _ _ w :=
    match posts w with
    | r :: rest =>
        (r, {| env := env w; secrets := secrets w; gets := gets w; posts := rest |})
    | [] => (inl (CollaboratorError "ConnectionError"), w)
    end
|}.

(** In the scripted runs every value an f-string formats is a string. *)
#[global] Instance repr_unused : PyRuntime := {| py_repr _ := "<object>" |}.

Definition ok (v : json) : exn + response :=
  inr {| status_code := 200; body := Some v |}.

Definition sample_constants : module_constants :=
  {| DLC_BASE_URL := Some "https://dlc.example";
     DMS_BASE_URL := "https://dms.example/documents/get?keyed=true&json=true" |}.

Definition sample_env : list (string * string) :=
  [("GCP_TARGET_PROJECT", "foundations-dev")].

Definition sample_secrets : list (string * string) :=
  [("projects/foundations-dev/secrets/DLC_API_KEY/versions/latest", "dlc-key")].

Definition sample_client : DMSClient :=
  {| is_prod := false;
     dms_api_key := "dms-key";
     dms_headers := [("api-key", "dms-key"); ("Content-Type", "application/json")] |}.

Definition sample_taxonomy_client : DLCTaxonomyClient :=
  {| dlc_api_key := "dlc-key";
     dlc_user_agent := "Foundations DBT Runner";
     dlc_headers := [("Authorization", "Bearer dlc-key");
                     ("User-Agent", "Foundations DBT Runner");
                     ("Content-Type", "application/json")];
     _taxonomy_cache := None |}.

(** The documents of the specification's scenarios. *)
Definition spark_job_config : json :=
  JDict {[ "platformTag" := JStr "spark";
           "foundations-table-name" := JStr "jobs.spark_x" ]}.

Definition raw_job_config : json :=
  JDict {[ "foundations-table-name" := JStr "jobs.raw" ]}.

Definition spark_shared_config : json :=
  JDict {[ "foundations-table-name" := JStr "shared.default";
           "retries" := JInt 3 ]}.

Definition taxonomy_document : json :=
  JList [JDict {[ "name" := JStr "spark"; "id" := JInt 7;
                  "category" := JStr "PIPELINE_PLATFORM" ]};
         JDict {[ "name" := JStr "other"; "id" := JInt 8;
                  "category" := JStr "TEAM" ]}].

Definition record_of (config : json) : json :=
  JList [JDict {[ "json" := config ]}].

Definition start (gets : list (exn + response)) (posts : list (exn + response))
    : state script :=
  {| world := {| env := sample_env; secrets := sample_secrets;
                 gets := gets; posts := posts |};
     log := [] |}.

(** The worlds of the scripted runs. *)
Definition unavailable : exn + response :=
  inr {| status_code := 503; body := None |}.


Definition spark_config : gmap string json :=
  {[ "platformTag" := JStr "spark";
     "foundations-table-name" := JStr "jobs.spark_x" ]}.

Definition raw_start : state script :=
  start [] [ok (record_of raw_job_config)].

Definition spark_start : state script :=
  start [ok taxonomy_document]
        [ok (record_of spark_job_config); ok (record_of spark_shared_config)].

Definition two_resolutions_start : state script :=
  start [ok taxonomy_document; ok taxonomy_document]
        [ok (record_of spark_job_config); ok (record_of spark_shared_config);
         ok (record_of spark_job_config); ok (record_of spark_shared_config)].

Definition taxonomy_up_start : state script := start [ok taxonomy_document] [].

Definition taxonomy_down_start : state script :=
  start [unavailable; unavailable] [].





(** The states a resolution with a platform tag passes through: after the
    job configuration, after the construction of the taxonomy client,
    after the lookup. *)
Definition after_job_config (t : state script) : state script :=
  (_fetch_job_config sample_constants sample_client "teamA/pipeline1" false t).2.

Definition after_client (t : state script) : state script :=
  (DLCTaxonomyClient_init None "Foundations DBT Runner" (after_job_config t)).2.

Definition after_lookup (t : state script) : state script :=
  (get_taxonomy_tag_id sample_constants sample_taxonomy_client (JStr "spark")
     (after_client t)).2.

(** Further worlds and documents for the scripted runs. *)
Definition bare_world : script :=
  {| env := []; secrets := []; gets := []; posts := [] |}.

Definition bare_start : state script := {| world := bare_world; log := [] |}.

Definition keyed_start : state script :=
  {| world :=
       {| env := [("GCP_TARGET_PROJECT", "foundations-prd-1sm9")];
          secrets :=
            [("projects/foundations-prd-1sm9/secrets/DLC_API_KEY/versions/latest",
              "dlc-key");
             ("projects/foundations-prd-1sm9/secrets/DMS_API_KEY/versions/latest",
              "dms-key")];
          gets := []; posts := [] |};
     log := [] |}.

Definition error_start : state script := start [unavailable] [unavailable].


Definition old_spark_tag : gmap string json :=
  {[ "name" := JStr "spark"; "id" := JInt 1;
     "category" := JStr "PIPELINE_PLATFORM" ]}.

Definition spark_tag : gmap string json :=
  {[ "name" := JStr "spark"; "id" := JInt 7;
     "category" := JStr "PIPELINE_PLATFORM" ]}.

Definition team_spark_tag : gmap string json :=
  {[ "name" := JStr "spark"; "id" := JInt 9; "category" := JStr "TEAM" ]}.

Definition shared_config : gmap string json :=
  {[ "foundations-table-name" := JStr "shared.default"; "retries" := JInt 3 ]}.

(** * Part II: properties *)

(** ** Documents *)

Lemma size_list_elem (l : list json) (x : json) :
  x ∈ l → json_size x < json_size (JList l).
Proof.
  simpl. induction 1 as [x l|x y l _ IH]; simpl; lia.
Qed.

Lemma size_dict_elem (m : gmap string json) (k : string) (x : json) :
  m !! k = Some x → json_size x < json_size (JDict m).
Proof.
  simpl. revert k x.
  induction m as [|i y m Hi Hfirst IH] using map_first_key_ind; intros k x Hk.
  - by rewrite lookup_empty in Hk.
  - rewrite map_fold_insert_first_key by done.
    destruct (decide (i = k)) as [->|Hne].
    + rewrite lookup_insert_eq in Hk. injection Hk as ->. lia.
    + rewrite lookup_insert_ne in Hk by done.
      specialize (IH _ _ Hk). lia.
Qed.

(** Induction over documents: the elements of a list and the values of a
    dict are smaller documents. *)
Lemma json_induction (P : json → Prop) :
  (∀ a, P (JAtom a)) →
  (∀ l, Forall P l → P (JList l)) →
  (∀ m, map_Forall (λ _, P) m → P (JDict m)) →
  ∀ v, P v.
Proof.
  intros Hatom Hlist Hdict v.
  remember (json_size v) as n eqn:Hn. revert v Hn.
  induction n as [n IH] using lt_wf_ind. intros v ->.
  destruct v as [a|l|m].
  - apply Hatom.
  - apply Hlist, Forall_forall. intros x Hx.
    eapply IH; [|reflexivity]. by apply size_list_elem.
  - apply Hdict. intros k x Hk.
    eapply IH; [|reflexivity]. by eapply size_dict_elem.
Qed.

(** ** The merge on values *)

Lemma deep_merge_fold (base o : gmap string json) :
  deep_merge base o = map_fold merge_entry base o.
Proof.
  unfold deep_merge. cbn [deep_merge_value].
  rewrite !map_fold_foldr. generalize (map_to_list o). intros items.
  induction items as [|[key ov] items IH]; [reflexivity|].
  cbn [foldr uncurry]. rewrite IH. unfold merge_entry, deep_merge.
  by destruct (_ !! key) as [[a|l|b]|], ov.
Qed.

Lemma deep_merge_empty (base : gmap string json) : deep_merge base ∅ = base.
Proof. rewrite deep_merge_fold. apply map_fold_empty. Qed.

Lemma deep_merge_insert (base o : gmap string json) (k : string) (v : json) :
  o !! k = None → map_first_key (<[k:=v]> o) k →
  deep_merge base (<[k:=v]> o) = merge_entry k v (deep_merge base o).
Proof.
  intros Hk Hfirst. rewrite !deep_merge_fold.
  by apply map_fold_insert_first_key.
Qed.

Lemma deep_merge_lookup (base override : gmap string json) (k : string) :
  deep_merge base override !! k = merged_at (base !! k) (override !! k).
Proof.
  induction override as [|i v o Hi Hfirst IH] using map_first_key_ind.
  - by rewrite deep_merge_empty, lookup_empty.
  - rewrite deep_merge_insert by done. unfold merge_entry.
    destruct (decide (i = k)) as [->|Hne].
    + rewrite lookup_insert_eq. rewrite IH, Hi. simpl.
      destruct (base !! k) as [[a|l|b]|]; simpl;
        try (by rewrite lookup_insert_eq).
      destruct v; by rewrite lookup_insert_eq.
    + rewrite (lookup_insert_ne o) by done. rewrite <- IH.
      destruct (deep_merge base o !! i) as [[a|l|b]|];
        try (by rewrite lookup_insert_ne).
      destruct v; by rewrite lookup_insert_ne.
Qed.

(** C1: [deep_merge base override] holds, at every key of the override,
  the recursive merge when the key is in [base] and both values are
  mappings, and the override's value itself in every other case (absent
  from [base], a sequence or a leaf on either side); at every key of
  [base] that the override lacks it holds [base]'s value. *)
Theorem deep_merge_spec (base override : gmap string json) :
(∀ k bm om,
    base !! k = Some (JDict bm) → override !! k = Some (JDict om) →
    deep_merge base override !! k = Some (JDict (deep_merge bm om)))
∧ (∀ k ov,
    override !! k = Some ov →
    ¬ (∃ bm om, base !! k = Some (JDict bm) ∧ ov = JDict om) →
    deep_merge base override !! k = Some ov)
∧ (∀ k,
    override !! k = None →
    deep_merge base override !! k = base !! k).
Proof.
split; [|split].
- intros k bm om Hb Ho. by rewrite deep_merge_lookup, Hb, Ho.
- intros k ov Ho Hnot. rewrite deep_merge_lookup, Ho. simpl.
  destruct (base !! k) as [[a|l|bm]|]; try reflexivity.
  destruct ov as [a|l|om]; try reflexivity.
  exfalso. apply Hnot. eauto.
- intros k Ho. by rewrite deep_merge_lookup, Ho.
Qed.

(** C6: merging a mapping with itself gives the mapping back. *)
Theorem deep_merge_idempotent (x : gmap string json) :
deep_merge x x = x.
Proof.
assert (∀ v : json, match v with
                    | JDict m => deep_merge m m = m
                    | _ => True
                    end) as H.
{ induction v as [a|l _|m IH] using json_induction; try exact I.
  apply map_eq. intros k. rewrite deep_merge_lookup.
  destruct (m !! k) as [v|] eqn:Hk; [|reflexivity]. simpl.
  destruct v as [a|l|m']; try reflexivity.
  specialize (IH _ _ Hk). simpl in IH. by rewrite IH. }
exact (H (JDict x)).
Qed.

(** A sequence is replaced as a whole, a mapping is replaced by a leaf, two
    mappings are merged, and what the override lacks is kept. *)
Example deep_merge_replaces_and_recurses :
  deep_merge
    {[ "a" := JList [JInt 1; JInt 2];
       "b" := JDict {[ "x" := JInt 1 ]};
       "c" := JDict {[ "y" := JInt 1 ]};
       "d" := JStr "kept" ]}
    {[ "a" := JList [JInt 3];
       "b" := JInt 5;
       "c" := JDict {[ "z" := JInt 2 ]};
       "e" := JNull ]}
  = {[ "a" := JList [JInt 3];
       "b" := JInt 5;
       "c" := JDict {[ "y" := JInt 1; "z" := JInt 2 ]};
       "d" := JStr "kept";
       "e" := JNull ]}.
Proof. vm_compute. reflexivity. Qed.

(** ** The merge over the store *)

(** A value read in one store is read in another that keeps every cell the
    reading may visit. *)
Lemma repr_transfer (X X' : gset nat) (h h' : gmap nat obj) (a : nat) (v : json) :
  (∀ c o, c ∉ X → h !! c = Some o → (c ∉ X') ∧ h' !! c = Some o) →
  repr X h a v → repr X' h' a v.
Proof.
  intros Hkeep. revert a.
  induction v as [x|l IH|m IH] using json_induction; intros a Hr;
    inversion Hr as [a' x' Ha Hl|a' items l' Ha Hl Hitems|a' d m' Ha Hl Hd];
    subst; destruct (Hkeep _ _ Ha Hl) as [Ha' Hl'].
  - by constructor.
  - apply repr_list with items; [done..|].
    clear Hr Hl Hl'. induction Hitems as [|c y items l Hc _ IHl]; [constructor|].
    inversion IH; subst. constructor; auto.
  - apply repr_dict with d; [done..|]. intros k.
    specialize (Hd k). inversion Hd as [c y Hc Hdk Hmk|]; [|constructor].
    constructor. symmetry in Hmk. by apply (IH _ _ Hmk).
Qed.

Lemma repr_weaken (X : gset nat) (h h' : gmap nat obj) (a : nat) (v : json) :
  h ⊆ h' → repr X h a v → repr X h' a v.
Proof.
  intros Hsub. apply repr_transfer. intros c o Hc Hl. split; [done|].
  by eapply lookup_weaken.
Qed.

Lemma repr_is_dict (X : gset nat) (h : gmap nat obj) (a : nat) (v : json) :
  repr X h a v → is_dict_at h a = is_dict v.
Proof.
  unfold is_dict_at.
  inversion 1 as [? ? ? Hl|? ? ? ? Hl|? ? ? ? Hl]; by rewrite Hl.
Qed.

Lemma alloc_fresh (o : obj) (h : gmap nat obj) :
  h !! (alloc o h).1 = None ∧ (alloc o h).2 = <[(alloc o h).1 := o]> h.
Proof.
  unfold alloc. simpl. split; [|done].
  apply not_elem_of_dom. apply is_fresh.
Qed.

(** One turn of the loop stores a value that represents what the merge on
    values holds at the key. *)
Lemma merge_item_step (n : nat) (X' : gset nat) (h : gmap nat obj)
    (merged : nat) (m : gmap string nat) (k : string) (ov : nat)
    (bv : option json) (jv : json) (jo : gmap string json) :
  merge_ok n → X' ⊆ dom h → h !! merged = Some (ODict m) →
  option_Forall2 (repr X' h) (m !! k) bv →
  repr X' h ov jv → jo !! k = Some jv → json_size (JDict jo) ≤ S n →
  ∃ val h1 target,
    merge_item (deep_merge_obj n) merged k ov h = setitem merged k val h1
    ∧ h ⊆ h1
    ∧ merged_at bv (Some jv) = Some target
    ∧ repr X' h1 val target.
Proof.
  intros Hok HX Hm Hmk Hov Hjo Hsz. unfold merge_item. rewrite Hm.
  inversion Hmk as [mv b Hmv Hq1 Hq2|Hq1 Hq2]; [|by exists ov, h, jv].
  rewrite (repr_is_dict _ _ _ _ Hmv), (repr_is_dict _ _ _ _ Hov).
  destruct b as [x|l|bm]; [by exists ov, h, jv..|].
  destruct jv as [x|l|om]; [by exists ov, h, (JAtom x)|by exists ov, h, (JList l)|].
  simpl.
  destruct (Hok X' h mv ov bm om) as (r & h1 & Hrun & Hsub & Hr); [done..| |].
  { pose proof (size_dict_elem _ _ _ Hjo). lia. }
  rewrite Hrun. by exists r, h1, (JDict (deep_merge bm om)).
Qed.

(** The loop: once every item is processed, the dict at [merged] holds at
    each key what the merge on values holds there; no other cell changes. *)
Lemma for_items_merge (n : nat) (X' : gset nat) (merged : nat)
    (jb jo : gmap string json) :
  merge_ok n → merged ∈ X' → json_size (JDict jo) ≤ S n →
  ∀ (items : list (string * nat)) (h : gmap nat obj) (m : gmap string nat),
    NoDup items.*1 →
    (∀ k a, (k, a) ∈ items → ∃ jv, jo !! k = Some jv ∧ repr X' h a jv) →
    X' ⊆ dom h →
    h !! merged = Some (ODict m) →
    (∀ k, option_Forall2 (repr X' h) (m !! k)
            (if decide (k ∈ items.*1) then jb !! k
             else merged_at (jb !! k) (jo !! k))) →
    ∃ h' m',
      for_items (merge_item (deep_merge_obj n) merged) items h
        = Some (inr (), h')
      ∧ (∀ c x, c ≠ merged → h !! c = Some x → h' !! c = Some x)
      ∧ h' !! merged = Some (ODict m')
      ∧ (∀ k, option_Forall2 (repr X' h') (m' !! k)
                (merged_at (jb !! k) (jo !! k))).
Proof.
  intros Hok Hmerged Hsz items.
  induction items as [|[k ov] items IH]; intros h m Hnodup Hitems HX Hm Hinv.
  { exists h, m. repeat split; try done. }
  rewrite fmap_cons in Hnodup. apply NoDup_cons in Hnodup as [Hk Hnodup].
  destruct (Hitems k ov) as (jv & Hjo & Hov); [left|].
  pose proof (Hinv k) as Hinvk. rewrite fmap_cons in Hinvk.
  rewrite decide_True in Hinvk by left.
  destruct (merge_item_step n X' h merged m k ov _ jv jo Hok HX Hm Hinvk Hov Hjo Hsz)
    as (val & h1 & target & Hstep & Hsub & Htarget & Hval).
  cbn [for_items]. rewrite Hstep. unfold setitem.
  rewrite (lookup_weaken _ _ _ _ Hm Hsub).
  set (h2 := <[merged := ODict (<[k := val]> m)]> h1).
  assert (∀ c x, c ≠ merged → h !! c = Some x → h2 !! c = Some x) as Hframe.
  { intros c x Hc Hl. unfold h2. rewrite lookup_insert_ne by done.
    by eapply lookup_weaken. }
  assert (∀ a v, repr X' h a v → repr X' h2 a v) as Hmove.
  { intros a v. apply repr_transfer. intros c x Hc Hl. split; [done|].
    apply Hframe; [|done]. by intros ->. }
  assert (∀ a v, repr X' h1 a v → repr X' h2 a v) as Hmove1.
  { intros a v. apply repr_transfer. intros c x Hc Hl. split; [done|].
    unfold h2. rewrite lookup_insert_ne; [done|]. by intros ->. }
  destruct (IH h2 (<[k := val]> m)) as (h' & m' & Hrun & Hfr & Hm' & Hinv').
  - done.
  - intros j a Hja. destruct (Hitems j a) as (jv' & ? & ?); [by right|].
    exists jv'. auto.
  - unfold h2. rewrite dom_insert. apply subseteq_dom in Hsub. set_solver.
  - unfold h2. by rewrite lookup_insert_eq.
  - intros j. destruct (decide (j = k)) as [->|Hne].
    + rewrite lookup_insert_eq, decide_False by done.
      rewrite Hjo. rewrite Htarget. constructor. auto.
    + rewrite lookup_insert_ne by done. specialize (Hinv j).
      rewrite fmap_cons in Hinv.
      assert (option_Forall2 (repr X' h) (m !! j)
                (if decide (j ∈ items.*1) then jb !! j
                 else merged_at (jb !! j) (jo !! j))) as Hinvj.
      { destruct (decide (j ∈ items.*1)) as [Hin|Hnin].
        - rewrite decide_True in Hinv; [done|by right].
        - rewrite decide_False in Hinv; [done|].
          intros [?|?]%elem_of_cons; simpl in *; congruence. }
      inversion Hinvj; constructor; auto.
  - exists h', m'. repeat split; try done.
    intros c x Hc Hl. apply Hfr; [done|]. by apply Hframe.
Qed.

Lemma merge_ok_all (n : nat) : merge_ok n.
Proof.
  induction n as [|n IH];
    intros X h base override jb jo HX Hb Ho Hsz; [simpl in Hsz; lia|].
  inversion Hb as [| |? d ? Hbx Hbl Hbd]; subst.
  inversion Ho as [| |? od ? Hox Hol Hod]; subst.
  cbn [deep_merge_obj]. rewrite Hbl.
  destruct (alloc_fresh (ODict d) h) as [Hfresh Heq].
  destruct (alloc (ODict d) h) as [merged h1]. simpl in Hfresh, Heq. subst h1.
  set (h1 := <[merged := ODict d]> h).
  assert (h ⊆ h1) as Hsub by by apply insert_subseteq.
  rewrite (lookup_weaken _ _ _ _ Hol Hsub).
  assert (merged ∉ X) as HmX.
  { intros Hin. apply HX in Hin. by apply not_elem_of_dom in Hfresh. }
  assert (∀ a v, repr X h a v → repr (X ∪ {[merged]}) h1 a v) as Hmove.
  { intros a v. apply repr_transfer. intros c x Hc Hl. split.
    - intros [?|Hc']%elem_of_union; [done|].
      apply elem_of_singleton in Hc'. congruence.
    - by eapply lookup_weaken. }
  assert (merged ∈ X ∪ {[merged]}) as Hmem.
  { apply elem_of_union. right. by apply elem_of_singleton. }
  destruct (for_items_merge n (X ∪ {[merged]}) merged jb jo IH
              Hmem Hsz (map_to_list od) h1 d)
    as (h' & m' & Hrun & Hfr & Hm' & Hinv).
  - apply NoDup_fst_map_to_list.
  - intros k a Hka%elem_of_map_to_list. specialize (Hod k).
    rewrite Hka in Hod. inversion Hod as [a' jv Hr Hq1 Hq2|].
    exists jv. auto.
  - unfold h1. rewrite dom_insert. set_solver.
  - unfold h1. by rewrite lookup_insert_eq.
  - intros k. specialize (Hbd k). specialize (Hod k).
    assert (option_Forall2 (repr (X ∪ {[merged]}) h1) (d !! k) (jb !! k)) as Hk.
    { inversion Hbd; constructor; auto. }
    destruct (decide (k ∈ (map_to_list od).*1)) as [Hin|Hnin]; [done|].
    destruct (od !! k) as [a|] eqn:Hodk.
    + exfalso. apply Hnin. apply list_elem_of_fmap. exists (k, a).
      split; [done|]. by apply elem_of_map_to_list.
    + inversion Hod as [|Hq1 Hq2]. done.
  - rewrite Hrun. exists merged, h'. split; [done|]. split.
    + apply map_subseteq_spec. intros c x Hl. apply Hfr.
      * intros ->. congruence.
      * by eapply lookup_weaken.
    + apply repr_dict with m'; [done..|]. intros k. rewrite deep_merge_lookup.
      specialize (Hinv k). inversion Hinv as [a' v' Hr Hq1 Hq2|]; constructor.
      revert Hr. apply repr_transfer. intros c z Hc Hl. split; [|done].
      set_solver.
Qed.

(** C5: on a store in which [base] and [override] are mappings with the
    values [jb] and [jo], the merge returns (given fuel for the depth of the
    override) a reference [merged]; the store it leaves holds every object
    of the store it started from, unchanged, so [base] and [override] still
    have the values [jb] and [jo], nested mappings and leaves included; and
    [merged] has the value of the merge on values. *)
Theorem deep_merge_leaves_inputs_unchanged
    (h : gmap nat obj) (base override : nat) (jb jo : gmap string json)
    (fuel : nat) :
  represents h base (JDict jb) →
  represents h override (JDict jo) →
  json_size (JDict jo) ≤ fuel →
  ∃ merged h',
    deep_merge_obj fuel base override h = Some (inr merged, h')
    ∧ (∀ a o, h !! a = Some o → h' !! a = Some o)
    ∧ represents h' base (JDict jb)
    ∧ represents h' override (JDict jo)
    ∧ represents h' merged (JDict (deep_merge jb jo)).
Proof.
  unfold represents. intros Hb Ho Hsz.
  destruct (merge_ok_all fuel ∅ h base override jb jo) as (merged & h' & Hrun & Hsub & Hr);
    [set_solver|done..|].
  exists merged, h'. repeat split; try done.
  - intros a o Hl. by eapply lookup_weaken.
  - by eapply repr_weaken.
  - by eapply repr_weaken.
Qed.

Lemma entries_empty (R : nat → json → Prop) (k : string) :
  option_Forall2 R ((∅ : gmap string nat) !! k) ((∅ : gmap string json) !! k).
Proof. rewrite !lookup_empty. constructor. Qed.

Lemma entries_insert (R : nat → json → Prop) (d : gmap string nat)
    (m : gmap string json) (i : string) (a : nat) (v : json) :
  R a v → (∀ k, option_Forall2 R (d !! k) (m !! k)) →
  ∀ k, option_Forall2 R (<[i:=a]> d !! k) (<[i:=v]> m !! k).
Proof.
  intros Hav Hdm k. destruct (decide (i = k)) as [->|Hne].
  - rewrite !lookup_insert_eq. by constructor.
  - rewrite !lookup_insert_ne by done. apply Hdm.
Qed.

Lemma entries_singleton (R : nat → json → Prop) (i : string) (a : nat) (v : json) :
  R a v →
  ∀ k, option_Forall2 R (({[i:=a]} : gmap string nat) !! k)
                        (({[i:=v]} : gmap string json) !! k).
Proof.
  intros Hav k. rewrite <- !insert_empty.
  apply entries_insert; [done|]. apply entries_empty.
Qed.

Example deep_merge_obj_sample :
  ∃ h', deep_merge_obj 3 4 5 sample_store = Some (inr 6, h')
        ∧ h' !! 6 = Some (ODict {[ "cfg" := 7; "x" := 0 ]})
        ∧ h' !! 7 = Some (ODict {[ "a" := 0; "b" := 1 ]})
        ∧ h' !! 4 = Some (ODict {[ "cfg" := 2; "x" := 0 ]})
        ∧ h' !! 2 = Some (ODict {[ "a" := 0 ]}).
Proof. eexists. split; [vm_compute; reflexivity|]. by vm_compute. Qed.

(** Closes [repr] goals on a concrete store, given the entries of each
    dict met on the way. *)
Ltac solve_repr_with dicts :=
  repeat first
    [ apply repr_atom; [set_solver|vm_compute; reflexivity]
    | apply entries_singleton
    | apply entries_insert
    | dicts ].

Ltac sample_dicts :=
  first
    [ apply (repr_dict _ _ 4 {[ "cfg" := 2; "x" := 0 ]});
        [set_solver|vm_compute; reflexivity|]
    | apply (repr_dict _ _ 5 {[ "cfg" := 3 ]});
        [set_solver|vm_compute; reflexivity|]
    | apply (repr_dict _ _ 2 {[ "a" := 0 ]});
        [set_solver|vm_compute; reflexivity|]
    | apply (repr_dict _ _ 3 {[ "b" := 1 ]});
        [set_solver|vm_compute; reflexivity|] ].

Lemma deep_merge_leaves_inputs_unchanged_witness :
  ∃ merged h',
    deep_merge_obj 3 4 5 sample_store = Some (inr merged, h')
    ∧ (∀ a o, sample_store !! a = Some o → h' !! a = Some o)
    ∧ represents h' 4 (JDict sample_base)
    ∧ represents h' 5 (JDict sample_override)
    ∧ represents h' merged (JDict (deep_merge sample_base sample_override)).
Proof.
  apply (deep_merge_leaves_inputs_unchanged sample_store 4 5
           sample_base sample_override 3).
  - unfold represents, sample_base. solve_repr_with sample_dicts.
  - unfold represents, sample_override. solve_repr_with sample_dicts.
  - vm_compute. lia.
Defined.

(** ** Text *)

Lemma str_replace_length (old new : ascii) (s : string) :
  String.length (str_replace old new s) = String.length s.
Proof. induction s as [|c s IH]; simpl; congruence. Qed.

Lemma str_replace_get (old new : ascii) (s : string) (i : nat) :
  String.get i (str_replace old new s)
  = (λ c, if Ascii.eqb c old then new else c) <$> String.get i s.
Proof.
  revert i. induction s as [|c s IH]; intros i; [reflexivity|].
  destruct i as [|i]; simpl; [reflexivity|apply IH].
Qed.

Lemma str_replace_removes (old new : ascii) (s : string) (i : nat) :
  old ≠ new → String.get i (str_replace old new s) ≠ Some old.
Proof.
  intros Hne. rewrite str_replace_get.
  destruct (String.get i s) as [c|]; simpl; [|done].
  destruct (Ascii.eqb c old) eqn:Hc; intros [= Heq]; [congruence|].
  apply Ascii.eqb_neq in Hc. congruence.
Qed.

(** ** The clients *)

Section ClientFacts.
Context {World : Type} `{!Collaborators World} `{!PyRuntime}.
Context (constants : module_constants).

(** C2: when the model resolution returns [model], the top-level call
    returns, in the state the resolution left, the text
    [+{model} --vars '{"pool_name": "{pool}", "scala_job_id": "{job_id}"}']
    where [pool] is [job_id] with each slash turned into an underscore and
    every other character kept, [job_id] is written as it came, and a model
    that is a string is written as it is. *)
Theorem fetch_model_and_pool_name_format
    (self : DMSClient) (job_id : string) (model : json) (s s' : state World) :
  _fetch_model_by_job_id constants self job_id (is_prod self) s = (inr model, s') →
  ∃ pool : string,
    fetch_model_and_pool_name constants self job_id s
    = (inr ("+" +:+ py_str model +:+ " --vars '{" +:+ dquote +:+ "pool_name"
            +:+ dquote +:+ ": " +:+ dquote +:+ pool +:+ dquote +:+ ", "
            +:+ dquote +:+ "scala_job_id" +:+ dquote +:+ ": " +:+ dquote
            +:+ job_id +:+ dquote +:+ "}'"), s')
    ∧ String.length pool = String.length job_id
    ∧ (∀ i, String.get i pool
            = (λ c, if Ascii.eqb c "/" then "_"%char else c) <$> String.get i job_id)
    ∧ (∀ i, String.get i pool ≠ Some "/"%char)
    ∧ (∀ m, model = JStr m → py_str model = m).
Proof.
  intros Hmodel. exists (str_replace "/" "_" job_id).
  repeat split.
  - unfold fetch_model_and_pool_name, bind. by rewrite Hmodel.
  - apply str_replace_length.
  - apply str_replace_get.
  - intros i. by apply str_replace_removes.
  - by intros m ->.
Qed.


(** *** How the log grows *)

Lemma calls_of_app (l1 l2 : list event) :
  calls_of (l1 ++ l2) = calls_of l1 ++ calls_of l2.
Proof. apply omap_app. Qed.

Lemma taxonomy_calls_app (l1 l2 : list event) :
  taxonomy_calls (l1 ++ l2) = taxonomy_calls l1 + taxonomy_calls l2.
Proof.
  unfold taxonomy_calls. by rewrite calls_of_app, filter_app, length_app.
Qed.

(** A search is one request to the document store, whatever comes back. *)
Lemma search_documents_log (self : DMSClient) (request : json)
    (not_found : message) (s : state World) :
  log (search_documents constants self request not_found s).2
  = log s ++ [HttpPost (DMS_BASE_URL constants) request (dms_headers self)].
Proof.
  unfold search_documents, bind, call, raise_for_status, response_json, lift.
  destruct (requests_post _ _ _ _) as [[e|r] w]; simpl; [done|].
  destruct (_ && _); simpl; [done|].
  destruct (body r) as [records|]; simpl; [|done].
  destruct (truthy records); simpl; [|done].
  by destruct (py_first records).
Qed.


(** *** Steps of a computation *)

Lemma bind_inr {A B : Type} (m : M A) (k : A → M B) (s s' : state World) (b : B) :
  bind m k s = (inr b, s') →
  ∃ a s1, m s = (inr a, s1) ∧ k a s1 = (inr b, s').
Proof. unfold bind. destruct (m s) as [[e|a] s1]; [done|eauto]. Qed.

Lemma bind_value {A B : Type} (m : M A) (k : A → M B) (s s1 : state World) (a : A) :
  m s = (inr a, s1) → bind m k s = k a s1.
Proof. unfold bind. by intros ->. Qed.

Lemma bind_raise {A B : Type} (m : M A) (k : A → M B) (s s1 : state World) (e : exn) :
  m s = (inl e, s1) → bind m k s = (inl e, s1).
Proof. unfold bind. by intros ->. Qed.

Lemma lift_inr {A : Type} (x : exn + A) (s s' : state World) (a : A) :
  lift x s = (inr a, s') → x = inr a ∧ s' = s.
Proof. unfold lift. by intros [= -> ->]. Qed.

Lemma py_get_inr (v : json) (key : string) (dflt r : json) :
  py_get v key dflt = inr r → ∃ m, v = JDict m ∧ r = default dflt (m !! key).
Proof. destruct v as [a|l|m]; simpl; [done..|]. intros [= <-]. eauto. Qed.

(** *** The model of a configuration *)

Lemma model_of_config_dict (job_id : string) (m : gmap string json)
    (s : state World) :
  model_of_config job_id (JDict m) s
  = (match m !! "foundations-table-name" with
     | Some model =>
         if truthy model then inr model
         else inl (ValueError (MsgNoTableName job_id))
     | None => inl (ValueError (MsgNoTableName job_id))
     end, s).
Proof.
  unfold model_of_config, bind, lift, raise, ret. simpl.
  destruct (m !! "foundations-table-name") as [model|]; simpl; [|done].
  by destruct (truthy model).
Qed.

(** A merge that succeeds against a non-empty dict is a dict. *)
Lemma deep_merge_with_priority_dict (base : json) (jc : gmap string json)
    (key : string) (v r : json) :
  jc !! key = Some v →
  _deep_merge_with_priority base (JDict jc) = inr r →
  ∃ b, base = JDict b ∧ r = JDict (deep_merge b jc).
Proof.
  intros Hkey. destruct base as [a|l|b]; simpl; [done| |].
  - assert (size jc ≠ 0) as Hsize.
    { intros ->%map_size_empty_inv. by rewrite lookup_empty in Hkey. }
    destruct (size jc); done.
  - intros [= <-]. eauto.
Qed.

(** The configuration the model is read from is always a dict. *)
Lemma merged_config_is_dict (self : DMSClient) (job_id : string)
    (is_prod : bool) (s s' : state World) (cfg : json) :
  merged_config_of constants self job_id is_prod s = (inr cfg, s') →
  ∃ m, cfg = JDict m.
Proof.
  unfold merged_config_of.
  intros (job_config & s1 & _ & Hrest)%bind_inr.
  apply bind_inr in Hrest as (platform_tag & s2 & Htag & Hrest).
  apply lift_inr in Htag as [Htag ->].
  apply py_get_inr in Htag as (jc & -> & ->).
  destruct (truthy (default JNull (jc !! "platformTag"))) eqn:Htruthy; simpl in Hrest.
  - apply bind_inr in Hrest as (dlc & s3 & _ & Hrest).
    apply bind_inr in Hrest as (id & s4 & _ & Hrest).
    apply bind_inr in Hrest as (shared & s5 & _ & Hrest).
    apply lift_inr in Hrest as [Hmerge _].
    destruct (jc !! "platformTag") as [tag|] eqn:Hjc; [|done].
    destruct (deep_merge_with_priority_dict _ _ _ _ _ Hjc Hmerge) as (b & _ & ->).
    eauto.
  - apply bind_inr in Hrest as (u & s3 & _ & Hrest).
    injection Hrest as <- _. eauto.
Qed.

(** C8: whatever configuration the resolution arrives at, from the job
    configuration alone or merged, the model is its
    [foundations-table-name] when that is present and truthy, and the
    resolution raises the table-name [ValueError], the specification's
    [ValidationError], when it is absent or falsy. *)
Theorem model_is_table_name_or_validation_error
    (self : DMSClient) (job_id : string) (is_prod : bool)
    (s s' : state World) (cfg : json) :
  merged_config_of constants self job_id is_prod s = (inr cfg, s') →
  ∃ m, cfg = JDict m
    ∧ _fetch_model_by_job_id constants self job_id is_prod s
      = (match m !! "foundations-table-name" with
         | Some model =>
             if truthy model then inr model
             else inl (ValueError (MsgNoTableName job_id))
         | None => inl (ValueError (MsgNoTableName job_id))
         end, s')
    ∧ spec_error_kind (ValueError (MsgNoTableName job_id)) = Some ValidationError.
Proof.
  intros Hcfg. destruct (merged_config_is_dict _ _ _ _ _ _ Hcfg) as [m ->].
  exists m. split; [done|]. split; [|done].
  unfold _fetch_model_by_job_id. rewrite (bind_value _ _ _ _ _ Hcfg).
  apply model_of_config_dict.
Qed.

(** *** Resolution without a platform tag *)

Lemma fetch_job_config_log (self : DMSClient) (job_id : string)
    (is_prod : bool) (s : state World) :
  log (_fetch_job_config constants self job_id is_prod s).2
  = log s ++ [HttpPost (DMS_BASE_URL constants)
                (search_request "JobId" (JStr job_id) "PipelineJob" is_prod)
                (dms_headers self)].
Proof. apply search_documents_log. Qed.

(** C3: when the job configuration has no [platformTag], or a falsy one,
    the resolution goes on with the job configuration alone: after the
    search for the job configuration the only further event is the printed
    warning, so the taxonomy service and the shared-configuration search
    are not called, and the model is read from the job configuration. *)
Theorem missing_platform_tag_uses_job_config
    (self : DMSClient) (job_id : string) (is_prod : bool)
    (s s1 : state World) (jc : gmap string json) :
  _fetch_job_config constants self job_id is_prod s = (inr (JDict jc), s1) →
  truthy (default JNull (jc !! "platformTag")) = false →
  ∃ s2,
    merged_config_of constants self job_id is_prod s = (inr (JDict jc), s2)
    ∧ _fetch_model_by_job_id constants self job_id is_prod s
      = model_of_config job_id (JDict jc) s2
    ∧ (∀ model, jc !! "foundations-table-name" = Some model →
                truthy model = true →
                _fetch_model_by_job_id constants self job_id is_prod s
                = (inr model, s2))
    ∧ world s2 = world s1
    ∧ log s2 = log s ++ [HttpPost (DMS_BASE_URL constants)
                           (search_request "JobId" (JStr job_id) "PipelineJob"
                              is_prod)
                           (dms_headers self);
                         Print (no_platform_tag_warning job_id)]
    ∧ calls_of (log s2) = calls_of (log s) ++ [DocumentStore].
Proof.
  intros Hjob Htag.
  exists {| world := world s1;
            log := log s1 ++ [Print (no_platform_tag_warning job_id)] |}.
  assert (merged_config_of constants self job_id is_prod s
          = (inr (JDict jc),
             {| world := world s1;
                log := log s1 ++ [Print (no_platform_tag_warning job_id)] |}))
    as Hcfg.
  { unfold merged_config_of. rewrite (bind_value _ _ _ _ _ Hjob).
    unfold bind, lift. simpl. by rewrite Htag. }
  pose proof (fetch_job_config_log self job_id is_prod s) as Hlog.
  rewrite Hjob in Hlog. simpl in Hlog.
  assert (_fetch_model_by_job_id constants self job_id is_prod s
          = model_of_config job_id (JDict jc)
              {| world := world s1;
                 log := log s1 ++ [Print (no_platform_tag_warning job_id)] |})
    as Hmodel.
  { unfold _fetch_model_by_job_id. by rewrite (bind_value _ _ _ _ _ Hcfg). }
  repeat split; try done.
  - intros model Hname Htruthy. rewrite Hmodel, model_of_config_dict.
    by rewrite Hname, Htruthy.
  - simpl. rewrite Hlog. by rewrite <- app_assoc.
  - simpl. rewrite Hlog. by rewrite !calls_of_app, <- app_assoc.
Qed.

(** *** Resolution with a platform tag *)

(** Once the job configuration, the taxonomy client and the taxonomy id
    are there, what is left is the shared search and the merge. *)
Lemma merged_config_with_platform_tag (self : DMSClient) (job_id : string)
    (is_prod : bool) (s s1 s2 s3 : state World) (jc : gmap string json)
    (tag taxonomy_tag_id : json) (dlc dlc' : DLCTaxonomyClient) :
  _fetch_job_config constants self job_id is_prod s = (inr (JDict jc), s1) →
  jc !! "platformTag" = Some tag → truthy tag = true →
  DLCTaxonomyClient_init None "Foundations DBT Runner" s1 = (inr dlc, s2) →
  get_taxonomy_tag_id constants dlc tag s2 = (inr taxonomy_tag_id, dlc', s3) →
  merged_config_of constants self job_id is_prod s
  = bind (_fetch_shared_platform_config constants self taxonomy_tag_id is_prod)
      (λ shared_config, lift (_deep_merge_with_priority shared_config (JDict jc)))
      s3.
Proof.
  intros Hjob Hjc Htag Hinit Hid.
  unfold merged_config_of. rewrite (bind_value _ _ _ _ _ Hjob).
  unfold bind at 1. unfold lift at 1. simpl. rewrite Hjc. simpl. rewrite Htag. simpl.
  rewrite (bind_value _ _ _ _ _ Hinit).
  unfold bind at 1. by rewrite Hid.
Qed.

(** *** The texts of the errors *)




(** *** A first record without a [json] field *)



(** *** The taxonomy cache *)

(** A fetch is one request to the taxonomy service, whatever comes back. *)
Lemma fetch_taxonomy_tags_log (self : DLCTaxonomyClient) (s : state World) :
  log (fetch_taxonomy_tags constants self s).2
  = log s ++ [HttpGet (opt_str (DLC_BASE_URL constants) +:+ "/taxonomy")
                (dlc_headers self)].
Proof.
  unfold fetch_taxonomy_tags, bind, call, raise_for_status, response_json, lift.
  destruct (requests_get _ _ _) as [[e|r] w]; simpl; [done|].
  destruct (_ && _); simpl; [done|].
  destruct (body r) as [taxonomy|]; simpl; [|done].
  by destruct (py_iter taxonomy).
Qed.

(** With the cache set, a lookup touches neither the state nor the
    instance. *)
Lemma get_taxonomy_tag_id_cached (self : DLCTaxonomyClient)
    (tags : list (atom * json)) (platform_tag : json) (s : state World) :
  _taxonomy_cache self = Some tags →
  get_taxonomy_tag_id constants self platform_tag s
  = (lookup_tag tags platform_tag, self, s).
Proof. unfold get_taxonomy_tag_id. by intros ->. Qed.

Lemma get_taxonomy_tag_ids_cached (self : DLCTaxonomyClient)
    (tags : list (atom * json)) (platform_tags : list json) (s : state World) :
  _taxonomy_cache self = Some tags →
  get_taxonomy_tag_ids constants self platform_tags s
  = (lookup_tag tags <$> platform_tags, self, s).
Proof.
  intros Hcache. induction platform_tags as [|tag rest IH]; [done|].
  cbn [get_taxonomy_tag_ids].
  by rewrite (get_taxonomy_tag_id_cached _ _ _ _ Hcache), IH.
Qed.

(** With the cache unset, a lookup fetches; a fetch that raises leaves the
    cache unset. *)
Lemma get_taxonomy_tag_id_unset (self : DLCTaxonomyClient)
    (platform_tag : json) (s : state World) :
  _taxonomy_cache self = None →
  get_taxonomy_tag_id constants self platform_tag s
  = match fetch_taxonomy_tags constants self s with
    | (inr tags, s') =>
        (lookup_tag tags platform_tag, set_taxonomy_cache self tags, s')
    | (inl e, s') => (inl e, self, s')
    end.
Proof. unfold get_taxonomy_tag_id. by intros ->. Qed.

Lemma get_taxonomy_tag_id_unset_log (self : DLCTaxonomyClient)
    (platform_tag : json) (s : state World) :
  _taxonomy_cache self = None →
  log (get_taxonomy_tag_id constants self platform_tag s).2
  = log s ++ [HttpGet (opt_str (DLC_BASE_URL constants) +:+ "/taxonomy")
                (dlc_headers self)].
Proof.
  intros Hcache. rewrite (get_taxonomy_tag_id_unset _ _ _ Hcache).
  pose proof (fetch_taxonomy_tags_log self s) as Hlog.
  by destruct (fetch_taxonomy_tags constants self s) as [[e|tags] s'].
Qed.

(** C4, as the code has it: on an instance whose cache is unset and whose
    first fetch of the taxonomy succeeds, a sequence of one or more lookups
    (any tags) issues exactly one request to the taxonomy service: the
    first call fills the cache with what it fetched, every later call
    answers from it, and the sequence ends in the state the fetch left.
    A lookup whose fetch raises issues its request, raises the same
    exception and leaves the instance as it was, cache unset. *)
Theorem taxonomy_fetched_once
    (self : DLCTaxonomyClient) (platform_tag : json) (rest : list json)
    (s s1 : state World) (tags : list (atom * json)) :
  _taxonomy_cache self = None →
  fetch_taxonomy_tags constants self s = (inr tags, s1) →
  get_taxonomy_tag_ids constants self (platform_tag :: rest) s
  = (lookup_tag tags <$> (platform_tag :: rest),
     set_taxonomy_cache self tags, s1)
  ∧ _taxonomy_cache (set_taxonomy_cache self tags) = Some tags
  ∧ taxonomy_calls (log s1) = taxonomy_calls (log s) + 1
  ∧ (∀ (t t' : state World) (e : exn),
       fetch_taxonomy_tags constants self t = (inl e, t') →
       get_taxonomy_tag_id constants self platform_tag t = (inl e, self, t')
       ∧ taxonomy_calls (log t') = taxonomy_calls (log t) + 1).
Proof.
  intros Hcache Hfetch.
  assert (∀ (t t' : state World) (r : exn + list (atom * json)),
            fetch_taxonomy_tags constants self t = (r, t') →
            taxonomy_calls (log t') = taxonomy_calls (log t) + 1) as Hone.
  { intros t t' r Ht. pose proof (fetch_taxonomy_tags_log self t) as Hlog.
    rewrite Ht in Hlog. simpl in Hlog. by rewrite Hlog, taxonomy_calls_app. }
  split; [|split; [done|split; [by eapply Hone|]]].
  - cbn [get_taxonomy_tag_ids].
    rewrite (get_taxonomy_tag_id_unset _ _ _ Hcache), Hfetch.
    by rewrite (get_taxonomy_tag_ids_cached _ tags).
  - intros t t' e Ht. split; [|by eapply Hone].
    by rewrite (get_taxonomy_tag_id_unset _ _ _ Hcache), Ht.
Qed.

(** *** The calls of a resolution *)

Lemma SecretManagerClient_init_log (project : option string) (s : state World) :
  log (SecretManagerClient_init project s).2 = log s.
Proof.
  unfold SecretManagerClient_init, bind, getenv, ret, raise.
  destruct (str_truthy project); simpl.
  - destruct project as [p|]; [|done].
    destruct (String.eqb p EmptyString); [done|].
    by destruct (SecretManagerServiceClient (world s)) as [[e|u] w].
  - destruct (os_getenv _ _) as [p|]; [|done].
    destruct (String.eqb p EmptyString); [done|].
    by destruct (SecretManagerServiceClient (world s)) as [[e|u] w].
Qed.

(** Obtaining an API key calls neither service. *)
Lemma api_key_or_secret_calls (api_key : option string) (name : string)
    (s : state World) :
  calls_of (log (api_key_or_secret api_key name s).2) = calls_of (log s).
Proof.
  assert (calls_of (log (bind (SecretManagerClient_init None)
                           (λ sm, get_secret sm name) s).2)
          = calls_of (log s)) as Hsecret.
  { unfold bind. pose proof (SecretManagerClient_init_log None s) as Hlog.
    destruct (SecretManagerClient_init None s) as [[e|sm] s1]; simpl in *.
    - by rewrite Hlog.
    - unfold get_secret, call.
      destruct (access_secret_version _ _) as [r w]. simpl.
      rewrite calls_of_app, Hlog. simpl. by rewrite app_nil_r. }
  unfold api_key_or_secret. destruct api_key as [k|]; [|done].
  by destruct (String.eqb k EmptyString).
Qed.

Lemma DLCTaxonomyClient_init_calls (api_key : option string)
    (user_agent : string) (s : state World) :
  calls_of (log (DLCTaxonomyClient_init api_key user_agent s).2)
  = calls_of (log s).
Proof.
  unfold DLCTaxonomyClient_init, bind.
  pose proof (api_key_or_secret_calls api_key "DLC_API_KEY" s) as Hcalls.
  destruct (api_key_or_secret _ _ s) as [[e|key] s1]; simpl in *; [done|].
  by destruct (String.eqb key EmptyString).
Qed.

(** A client that was just constructed has its cache unset. *)
Lemma DLCTaxonomyClient_init_unset (api_key : option string)
    (user_agent : string) (s s' : state World) (dlc : DLCTaxonomyClient) :
  DLCTaxonomyClient_init api_key user_agent s = (inr dlc, s') →
  _taxonomy_cache dlc = None.
Proof.
  unfold DLCTaxonomyClient_init.
  intros (key & s1 & _ & Hrest)%bind_inr.
  destruct (String.eqb key EmptyString); [done|].
  by injection Hrest as <- _.
Qed.

Lemma model_of_config_state (job_id : string) (cfg : json) (s : state World) :
  (model_of_config job_id cfg s).2 = s.
Proof.
  unfold model_of_config, bind, lift, raise, ret.
  destruct (py_get cfg _ _) as [e|model]; simpl; [done|].
  by destruct (truthy model).
Qed.

Ltac close_pattern :=
  cbn; split; [done|]; split; [by auto|]; first [by intros []|by auto].

(** The service calls of the first part of a resolution. *)
Lemma merged_config_of_calls (self : DMSClient) (job_id : string)
    (is_prod : bool) (s s' : state World) (r : exn + json) :
  merged_config_of constants self job_id is_prod s = (r, s') →
  ∃ c, calls_of (log s') = calls_of (log s) ++ c
     ∧ call_pattern c
     ∧ (returned r →
        c = [DocumentStore]
        ∨ c = [DocumentStore; TaxonomyService; DocumentStore]).
Proof.
  unfold merged_config_of, call_pattern. unfold bind at 1.
  pose proof (fetch_job_config_log self job_id is_prod s) as Hjob.
  destruct (_fetch_job_config constants self job_id is_prod s)
    as [[e|job_config] s1]; simpl in Hjob.
  { intros [= <- <-]. exists [DocumentStore].
    rewrite Hjob, calls_of_app. close_pattern. }
  unfold bind at 1, lift at 1.
  destruct (py_get job_config "platformTag" JNull) as [e|tag]; simpl.
  { intros [= <- <-]. exists [DocumentStore].
    rewrite Hjob, calls_of_app. close_pattern. }
  destruct (truthy tag); simpl.
  2: { unfold bind, print, ret. simpl. intros [= <- <-].
       exists [DocumentStore]. simpl.
       rewrite Hjob, !calls_of_app. simpl. rewrite app_nil_r. close_pattern. }
  unfold bind at 1.
  pose proof (DLCTaxonomyClient_init_calls None "Foundations DBT Runner" s1)
    as Hinit.
  destruct (DLCTaxonomyClient_init None "Foundations DBT Runner" s1)
    as [[e|dlc] s2] eqn:Hdlc; simpl in Hinit.
  { intros [= <- <-]. exists [DocumentStore].
    rewrite Hinit, Hjob, calls_of_app. close_pattern. }
  apply DLCTaxonomyClient_init_unset in Hdlc.
  unfold bind at 1.
  pose proof (get_taxonomy_tag_id_unset_log dlc tag s2 Hdlc) as Hid.
  destruct (get_taxonomy_tag_id constants dlc tag s2) as [[r' dlc'] s3].
  simpl in Hid.
  assert (calls_of (log s3)
          = calls_of (log s) ++ [DocumentStore; TaxonomyService]) as Hs3.
  { rewrite Hid, calls_of_app, Hinit, Hjob, calls_of_app.
    by rewrite <- app_assoc. }
  destruct r' as [e|taxonomy_tag_id].
  { intros [= <- <-]. exists [DocumentStore; TaxonomyService]. close_pattern. }
  unfold bind at 1.
  pose proof (search_documents_log self
                (search_request "PipelinePlatformId" taxonomy_tag_id
                   "SharedPipelineJob" is_prod)
                (MsgNoSharedConfig taxonomy_tag_id) s3) as Hshared.
  unfold _fetch_shared_platform_config.
  destruct (search_documents _ _ _ _ s3) as [[e|shared] s4]; simpl in Hshared.
  - intros [= <- <-]. exists [DocumentStore; TaxonomyService; DocumentStore].
    rewrite Hshared, calls_of_app, Hs3, <- app_assoc. close_pattern.
  - unfold lift. intros [= <- <-].
    exists [DocumentStore; TaxonomyService; DocumentStore].
    rewrite Hshared, calls_of_app, Hs3, <- app_assoc. close_pattern.
Qed.

Lemma fetch_model_and_pool_name_calls (self : DMSClient) (job_id : string)
    (s s' : state World) (r : exn + string) :
  fetch_model_and_pool_name constants self job_id s = (r, s') →
  ∃ c, calls_of (log s') = calls_of (log s) ++ c
     ∧ call_pattern c
     ∧ (returned r →
        c = [DocumentStore]
        ∨ c = [DocumentStore; TaxonomyService; DocumentStore]).
Proof.
  unfold fetch_model_and_pool_name, _fetch_model_by_job_id.
  unfold bind at 1. unfold bind at 1.
  destruct (merged_config_of constants self job_id (is_prod self) s)
    as [[e|cfg] s1] eqn:Hcfg;
    apply merged_config_of_calls in Hcfg as (c & Hlog & Hpattern & Hreturned).
  { intros [= <- <-]. exists c. split; [done|]. split; [done|]. by intros []. }
  pose proof (model_of_config_state job_id cfg s1) as Hstate.
  destruct (model_of_config job_id cfg s1) as [[e|model] s2];
    simpl in Hstate; subst s2.
  - intros [= <- <-]. exists c. split; [done|]. split; [done|]. by intros [].
  - unfold ret. intros [= <- <-]. exists c. auto.
Qed.

Lemma call_pattern_taxonomy (c : list service) :
  call_pattern c → length (filter (λ x, x = TaxonomyService) c) ≤ 1.
Proof. intros [Hc|[Hc|Hc]]; subst c; vm_compute; lia. Qed.

(** C9, as the code has it: in every sequence of top-level resolutions on
    one client, each resolution calls, in this order, the document store
    once, then possibly the taxonomy service once and then possibly the
    document store once more; a resolution that returns made either the
    first call alone or all three.  The taxonomy client, and with it the
    cache, is constructed anew inside each resolution with its cache
    unset, so its lookup always issues a request: across the sequence
    there is at most one taxonomy request per resolution. *)
Theorem resolutions_call_pattern
    (self : DMSClient) (job_ids : list string) (s : state World) :
  (∃ cs : list (list service),
     calls_of (log (fetch_models_and_pool_names constants self job_ids s).2)
     = calls_of (log s) ++ concat cs
     ∧ length cs = length job_ids
     ∧ Forall2 (λ r c, call_pattern c
                       ∧ (returned r →
                          c = [DocumentStore]
                          ∨ c = [DocumentStore; TaxonomyService; DocumentStore]))
         (fetch_models_and_pool_names constants self job_ids s).1 cs)
  ∧ taxonomy_calls (log (fetch_models_and_pool_names constants self job_ids s).2)
    ≤ taxonomy_calls (log s) + length job_ids
  ∧ (∀ (s1 s2 : state World) (dlc : DLCTaxonomyClient) (platform_tag : json),
       DLCTaxonomyClient_init None "Foundations DBT Runner" s1 = (inr dlc, s2) →
       _taxonomy_cache dlc = None
       ∧ taxonomy_calls
           (log (get_taxonomy_tag_id constants dlc platform_tag s2).2)
         = taxonomy_calls (log s2) + 1).
Proof.
  assert (∃ cs : list (list service),
     calls_of (log (fetch_models_and_pool_names constants self job_ids s).2)
     = calls_of (log s) ++ concat cs
     ∧ length cs = length job_ids
     ∧ Forall2 (λ r c, call_pattern c
                       ∧ (returned r →
                          c = [DocumentStore]
                          ∨ c = [DocumentStore; TaxonomyService; DocumentStore]))
         (fetch_models_and_pool_names constants self job_ids s).1 cs) as Hcs.
  { revert s. induction job_ids as [|job_id rest IH]; intros s.
    - exists []. simpl. by rewrite app_nil_r.
    - cbn [fetch_models_and_pool_names].
      destruct (fetch_model_and_pool_name constants self job_id s)
        as [r s1] eqn:Hfirst.
      apply fetch_model_and_pool_name_calls in Hfirst
        as (c & Hlog & Hpattern & Hreturned).
      destruct (IH s1) as (cs & Hlogs & Hlen & Hall).
      destruct (fetch_models_and_pool_names constants self rest s1) as [rs s2].
      simpl in *. exists (c :: cs). simpl.
      rewrite Hlogs, Hlog, <- app_assoc. split; [done|].
      split; [by rewrite Hlen|]. by constructor. }
  split; [done|]. split.
  - destruct Hcs as (cs & Hlog & Hlen & Hall).
    unfold taxonomy_calls. rewrite Hlog, filter_app, length_app.
    apply Nat.add_le_mono_l. rewrite <- Hlen. clear Hlog Hlen.
    induction Hall as [|r c rs cs [Hc _] _ IH]; [done|].
    simpl. rewrite filter_app, length_app.
    pose proof (call_pattern_taxonomy c Hc). lia.
  - intros s1 s2 dlc platform_tag Hinit.
    apply DLCTaxonomyClient_init_unset in Hinit. split; [done|].
    by rewrite (get_taxonomy_tag_id_unset_log _ _ _ Hinit), taxonomy_calls_app.
Qed.

End ClientFacts.

(** ** Scripted runs *)

(** The scenarios of the specification. *)
Example scenario_spark :
  (_fetch_model_by_job_id sample_constants sample_client "teamA/pipeline1" false
     spark_start).1 = inr (JStr "jobs.spark_x")
  ∧ (merged_config_of sample_constants sample_client "teamA/pipeline1" false
       spark_start).1
    = inr (JDict {[ "platformTag" := JStr "spark";
                    "foundations-table-name" := JStr "jobs.spark_x";
                    "retries" := JInt 3 ]}).
Proof. split; vm_compute; reflexivity. Qed.

Example scenario_raw :
  (fetch_model_and_pool_name sample_constants sample_client "teamA/pipeline1"
     raw_start).1
  = inr ("+jobs.raw --vars '{" +:+ dquote +:+ "pool_name" +:+ dquote +:+ ": "
         +:+ dquote +:+ "teamA_pipeline1" +:+ dquote +:+ ", " +:+ dquote
         +:+ "scala_job_id" +:+ dquote +:+ ": " +:+ dquote +:+ "teamA/pipeline1"
         +:+ dquote +:+ "}'")
  ∧ calls_of (log (fetch_model_and_pool_name sample_constants sample_client
                     "teamA/pipeline1" raw_start).2) = [DocumentStore].
Proof. split; vm_compute; reflexivity. Qed.

Lemma fetch_model_and_pool_name_format_witness :
  ∃ pool : string,
    fetch_model_and_pool_name sample_constants sample_client "teamA/pipeline1"
      raw_start
    = (inr ("+" +:+ "jobs.raw" +:+ " --vars '{" +:+ dquote +:+ "pool_name"
            +:+ dquote +:+ ": " +:+ dquote +:+ pool +:+ dquote +:+ ", "
            +:+ dquote +:+ "scala_job_id" +:+ dquote +:+ ": " +:+ dquote
            +:+ "teamA/pipeline1" +:+ dquote +:+ "}'"),
       (_fetch_model_by_job_id sample_constants sample_client "teamA/pipeline1"
          false raw_start).2)
    ∧ String.length pool = String.length "teamA/pipeline1"
    ∧ (∀ i, String.get i pool
            = (λ c, if Ascii.eqb c "/" then "_"%char else c)
                <$> String.get i "teamA/pipeline1")
    ∧ (∀ i, String.get i pool ≠ Some "/"%char)
    ∧ (∀ m, JStr "jobs.raw" = JStr m → "jobs.raw" = m).
Proof.
  apply (fetch_model_and_pool_name_format sample_constants sample_client
           "teamA/pipeline1" (JStr "jobs.raw") raw_start
           (_fetch_model_by_job_id sample_constants sample_client
              "teamA/pipeline1" false raw_start).2).
  vm_compute. reflexivity.
Defined.

Lemma missing_platform_tag_uses_job_config_witness :
  ∃ s2,
    merged_config_of sample_constants sample_client "teamA/pipeline1" false
      raw_start
    = (inr (JDict {[ "foundations-table-name" := JStr "jobs.raw" ]}), s2)
    ∧ _fetch_model_by_job_id sample_constants sample_client "teamA/pipeline1"
        false raw_start
      = model_of_config "teamA/pipeline1"
          (JDict {[ "foundations-table-name" := JStr "jobs.raw" ]}) s2
    ∧ (∀ model,
         ({[ "foundations-table-name" := JStr "jobs.raw" ]} : gmap string json)
           !! "foundations-table-name" = Some model →
         truthy model = true →
         _fetch_model_by_job_id sample_constants sample_client
           "teamA/pipeline1" false raw_start
         = (inr model, s2))
    ∧ world s2 = world (after_job_config raw_start)
    ∧ log s2
      = log raw_start
        ++ [HttpPost (DMS_BASE_URL sample_constants)
              (search_request "JobId" (JStr "teamA/pipeline1") "PipelineJob"
                 false)
              (dms_headers sample_client);
            Print (no_platform_tag_warning "teamA/pipeline1")]
    ∧ calls_of (log s2) = calls_of (log raw_start) ++ [DocumentStore].
Proof.
  apply (missing_platform_tag_uses_job_config sample_constants sample_client
           "teamA/pipeline1" false raw_start (after_job_config raw_start)
           {[ "foundations-table-name" := JStr "jobs.raw" ]}).
  - vm_compute. reflexivity.
  - vm_compute. reflexivity.
Defined.

Lemma taxonomy_fetched_once_witness :
  get_taxonomy_tag_ids sample_constants sample_taxonomy_client
    (JStr "spark" :: [JStr "other"; JStr "spark"]) taxonomy_up_start
  = (lookup_tag [(AStr "spark", JInt 7)]
       <$> (JStr "spark" :: [JStr "other"; JStr "spark"]),
     set_taxonomy_cache sample_taxonomy_client [(AStr "spark", JInt 7)],
     (fetch_taxonomy_tags sample_constants sample_taxonomy_client
        taxonomy_up_start).2)
  ∧ _taxonomy_cache
      (set_taxonomy_cache sample_taxonomy_client [(AStr "spark", JInt 7)])
    = Some [(AStr "spark", JInt 7)]
  ∧ taxonomy_calls
      (log (fetch_taxonomy_tags sample_constants sample_taxonomy_client
              taxonomy_up_start).2)
    = taxonomy_calls (log taxonomy_up_start) + 1
  ∧ (∀ (t t' : state script) (e : exn),
       fetch_taxonomy_tags sample_constants sample_taxonomy_client t
       = (inl e, t') →
       get_taxonomy_tag_id sample_constants sample_taxonomy_client
         (JStr "spark") t
       = (inl e, sample_taxonomy_client, t')
       ∧ taxonomy_calls (log t') = taxonomy_calls (log t) + 1).
Proof.
  apply (taxonomy_fetched_once sample_constants sample_taxonomy_client
           (JStr "spark") [JStr "other"; JStr "spark"] taxonomy_up_start
           (fetch_taxonomy_tags sample_constants sample_taxonomy_client
              taxonomy_up_start).2
           [(AStr "spark", JInt 7)]).
  - reflexivity.
  - vm_compute. reflexivity.
Defined.

(** Two lookups on one instance while the taxonomy service answers 503:
    each of them issues a request. *)
Lemma taxonomy_fetched_again_after_failure :
  _taxonomy_cache sample_taxonomy_client = None
  ∧ (get_taxonomy_tag_ids sample_constants sample_taxonomy_client
       [JStr "spark"; JStr "spark"] taxonomy_down_start).1.1
    = [inl (HTTPError 503); inl (HTTPError 503)]
  ∧ taxonomy_calls
      (log (get_taxonomy_tag_ids sample_constants sample_taxonomy_client
              [JStr "spark"; JStr "spark"] taxonomy_down_start).2)
    = 2.
Proof. repeat split; vm_compute; reflexivity. Qed.



Lemma model_is_table_name_or_validation_error_witness :
  ∃ m, JDict {[ "platformTag" := JStr "spark";
                "foundations-table-name" := JStr "jobs.spark_x";
                "retries" := JInt 3 ]} = JDict m
    ∧ _fetch_model_by_job_id sample_constants sample_client "teamA/pipeline1"
        false spark_start
      = (match m !! "foundations-table-name" with
         | Some model =>
             if truthy model then inr model
             else inl (ValueError (MsgNoTableName "teamA/pipeline1"))
         | None => inl (ValueError (MsgNoTableName "teamA/pipeline1"))
         end,
         (merged_config_of sample_constants sample_client "teamA/pipeline1"
            false spark_start).2)
    ∧ spec_error_kind (ValueError (MsgNoTableName "teamA/pipeline1"))
      = Some ValidationError.
Proof.
  apply (model_is_table_name_or_validation_error sample_constants
           sample_client "teamA/pipeline1" false spark_start
           (merged_config_of sample_constants sample_client "teamA/pipeline1"
              false spark_start).2).
  vm_compute. reflexivity.
Defined.

(** Two resolutions on one client, both with a platform tag: the taxonomy
    service is called twice. *)
Lemma taxonomy_called_in_every_resolution :
  taxonomy_calls
    (log (fetch_models_and_pool_names sample_constants sample_client
            ["teamA/pipeline1"; "teamA/pipeline1"] two_resolutions_start).2)
  = 2
  ∧ calls_of
      (log (fetch_models_and_pool_names sample_constants sample_client
              ["teamA/pipeline1"; "teamA/pipeline1"] two_resolutions_start).2)
    = [DocumentStore; TaxonomyService; DocumentStore;
       DocumentStore; TaxonomyService; DocumentStore].
Proof. split; vm_compute; reflexivity. Qed.



(** * Part III: further properties of the code *)

(** ** The merge on values *)

(** X1: No key is lost and none is invented: the keys of the merge are those of
    [base] and those of [override] (lines 154-164). *)
Theorem deep_merge_keys (base override : gmap string json) :
  dom (deep_merge base override) = dom base ∪ dom override.
Proof.
  apply set_eq. intros k.
  rewrite elem_of_union, !elem_of_dom, deep_merge_lookup.
  destruct (base !! k) as [[a|l|bm]|], (override !! k) as [[a'|l'|om]|];
    simpl; split; intros H; try (destruct H as [H|H]); eauto;
    by destruct H.
Qed.

(** X2: An empty mapping is neutral on either side: with an empty override the
    merge is (a copy of) [base], with an empty [base] it is the override. *)
Theorem deep_merge_empty_sides (x : gmap string json) :
  deep_merge x ∅ = x ∧ deep_merge ∅ x = x.
Proof.
  split.
  - apply map_eq. intros k. by rewrite deep_merge_lookup, lookup_empty.
  - apply map_eq. intros k. rewrite deep_merge_lookup, lookup_empty.
    by destruct (x !! k).
Qed.

(** X3: Applying the same override a second time changes nothing: after one
    merge the override has fully taken effect. *)
Theorem deep_merge_override_twice (base override : gmap string json) :
  deep_merge (deep_merge base override) override = deep_merge base override.
Proof.
  assert (∀ v : json,
            match v with
            | JDict o => deep_merge o o = o
                         ∧ ∀ b, deep_merge (deep_merge b o) o = deep_merge b o
            | _ => True
            end) as H.
  { induction v as [a|l _|o IH] using json_induction; try exact I.
    split.
    - apply map_eq. intros k. rewrite deep_merge_lookup.
      destruct (o !! k) as [v|] eqn:Hk; [|reflexivity]. simpl.
      destruct v as [a|l|o']; try reflexivity.
      destruct (IH _ _ Hk) as [Hself _]. by rewrite Hself.
    - intros b. apply map_eq. intros k. rewrite !deep_merge_lookup.
      destruct (o !! k) as [v|] eqn:Hk; [|reflexivity]. simpl.
      destruct v as [a|l|o'].
      + by destruct (b !! k) as [[?|?|?]|].
      + by destruct (b !! k) as [[?|?|?]|].
      + destruct (IH _ _ Hk) as [Hself Htwice].
        destruct (b !! k) as [[?|?|bm]|]; simpl; by rewrite ?Hself, ?Htwice. }
  destruct (H (JDict override)) as [_ Htwice]. apply Htwice.
Qed.

(** ** The merge over the store *)

Lemma setitem_spec (merged : nat) (key : string) (value : nat)
    (h h' : gmap nat obj) (m : gmap string nat) (r : exn + unit) :
  h !! merged = Some (ODict m) →
  setitem merged key value h = Some (r, h') →
  r = inr () ∧ h' = <[merged := ODict (<[key := value]> m)]> h.
Proof. unfold setitem. intros ->. by intros [= <- <-]. Qed.

(** One turn of the loop writes the dict at [merged], at the one key, and
    no other cell, provided the recursive call writes no cell that
    exists. *)
Lemma merge_item_frame
    (rec : nat → nat → gmap nat obj → option ((exn + nat) * gmap nat obj))
    (merged : nat) (key : string) (ov : nat) (h h' : gmap nat obj)
    (m : gmap string nat) (r : exn + unit) :
  (∀ b o g r' g', rec b o g = Some (r', g') → g ⊆ g') →
  h !! merged = Some (ODict m) →
  merge_item rec merged key ov h = Some (r, h') →
  (∀ c x, c ≠ merged → h !! c = Some x → h' !! c = Some x)
  ∧ ∃ m', h' !! merged = Some (ODict m')
        ∧ (∀ k, k ≠ key → m' !! k = m !! k)
        ∧ (r = inr () → m !! key = None → m' !! key = Some ov).
Proof.
  intros Hrec Hm. unfold merge_item. rewrite Hm.
  assert (∀ value g,
            g !! merged = Some (ODict m) → h ⊆ g →
            setitem merged key value g = Some (r, h') →
            (m !! key = None → value = ov) →
            (∀ c x, c ≠ merged → h !! c = Some x → h' !! c = Some x)
            ∧ ∃ m', h' !! merged = Some (ODict m')
                  ∧ (∀ k, k ≠ key → m' !! k = m !! k)
                  ∧ (r = inr () → m !! key = None → m' !! key = Some ov))
    as Hset.
  { intros value g Hg Hsub Hrun Hvalue.
    destruct (setitem_spec _ _ _ _ _ _ _ Hg Hrun) as [-> ->]. split.
    - intros c x Hc Hl. rewrite lookup_insert_ne by done.
      by eapply lookup_weaken.
    - exists (<[key := value]> m). rewrite lookup_insert_eq.
      split; [done|]. split.
      + intros k Hk. by rewrite lookup_insert_ne.
      + intros _ Hnone. by rewrite lookup_insert_eq, (Hvalue Hnone). }
  destruct (m !! key) as [mv|] eqn:Hkey.
  - destruct (is_dict_at h mv && is_dict_at h ov).
    + destruct (rec mv ov h) as [[[e|r0] g]|] eqn:Hcall; [| |done].
      * intros [= <- <-]. pose proof (Hrec _ _ _ _ _ Hcall) as Hsub. split.
        -- intros c x _ Hl. by eapply lookup_weaken.
        -- exists m. split; [by eapply lookup_weaken|]. by split.
      * intros Hrun. pose proof (Hrec _ _ _ _ _ Hcall) as Hsub.
        apply (Hset r0 g); [by eapply lookup_weaken|done..].
    + intros Hrun. by apply (Hset ov h).
  - intros Hrun. by apply (Hset ov h).
Qed.

(** The loop as a whole: cells other than [merged] are kept, keys that are
    not among the items keep their entry, and an item whose key [merged]
    lacked is entered with the item's own reference. *)
Lemma for_items_frame
    (rec : nat → nat → gmap nat obj → option ((exn + nat) * gmap nat obj))
    (merged : nat) :
  (∀ b o g r' g', rec b o g = Some (r', g') → g ⊆ g') →
  ∀ (items : list (string * nat)) (h h' : gmap nat obj)
    (m : gmap string nat) (r : exn + unit),
    h !! merged = Some (ODict m) →
    for_items (merge_item rec merged) items h = Some (r, h') →
    (∀ c x, c ≠ merged → h !! c = Some x → h' !! c = Some x)
    ∧ ∃ m', h' !! merged = Some (ODict m')
          ∧ (∀ k, k ∉ items.*1 → m' !! k = m !! k)
          ∧ (r = inr () → NoDup items.*1 →
             ∀ k ov, (k, ov) ∈ items → m !! k = None → m' !! k = Some ov).
Proof.
  intros Hrec items.
  induction items as [|[key ov] items IH]; intros h h' m r Hm Hrun.
  { injection Hrun as <- <-. split; [done|]. exists m.
    split; [done|]. split; [done|]. intros _ _ k ov' Hin.
    by apply elem_of_nil in Hin. }
  cbn [for_items] in Hrun.
  destruct (merge_item rec merged key ov h) as [[r1 h1]|] eqn:Hitem; [|done].
  destruct (merge_item_frame _ _ _ _ _ _ _ _ Hrec Hm Hitem)
    as (Hframe1 & m1 & Hm1 & Hother1 & Hnew1).
  destruct r1 as [e|u].
  - injection Hrun as <- <-. split; [done|]. exists m1. split; [done|]. split.
    + intros k Hk. apply Hother1. intros ->. apply Hk. rewrite fmap_cons. left.
    + done.
  - destruct (IH _ _ _ _ Hm1 Hrun) as (Hframe & m' & Hm' & Hother & Hnew).
    split; [by auto|]. exists m'. split; [done|]. split.
    + intros k Hk. rewrite fmap_cons in Hk. apply not_elem_of_cons in Hk as [Hne Hk].
      rewrite (Hother k Hk). by apply Hother1.
    + intros Hr Hnodup k ov' Hin Hnone.
      rewrite fmap_cons in Hnodup. apply NoDup_cons in Hnodup as [Hkey Hnodup].
      apply elem_of_cons in Hin as [[= -> ->]|Hin].
      * rewrite (Hother key Hkey). destruct u. by apply Hnew1.
      * apply (Hnew Hr Hnodup k ov' Hin).
        rewrite Hother1; [done|]. intros ->. apply Hkey.
        apply list_elem_of_fmap. by exists (key, ov').
Qed.

Lemma deep_merge_obj_frame
    (fuel : nat) (base override : nat) (h : gmap nat obj) (r : exn + nat)
    (h' : gmap nat obj) :
  deep_merge_obj fuel base override h = Some (r, h') → h ⊆ h'.
Proof.
  revert base override h r h'.
  induction fuel as [|n IH]; intros base override h r h'; [done|].
  cbn [deep_merge_obj].
  destruct (h !! base) as [[a|items|b]|] eqn:Hbase; [| | |done].
  - by intros [= <- <-].
  - destruct (alloc_fresh (OList items) h) as [Hfresh Heq].
    destruct (alloc (OList items) h) as [merged h1]. simpl in Hfresh, Heq.
    subst h1. pose proof (insert_subseteq h merged (OList items) Hfresh).
    destruct (_ !! override) as [[?|?|o]|]; [| | |done].
    + by intros [= <- <-].
    + by intros [= <- <-].
    + by destruct (map_to_list o); intros [= <- <-].
  - destruct (alloc_fresh (ODict b) h) as [Hfresh Heq].
    destruct (alloc (ODict b) h) as [merged h1]. simpl in Hfresh, Heq.
    subst h1. pose proof (insert_subseteq h merged (ODict b) Hfresh) as Hsub.
    destruct (_ !! override) as [[?|?|o]|]; [| | |done].
    + by intros [= <- <-].
    + by intros [= <- <-].
    + destruct (for_items _ _ _) as [[ru h2]|] eqn:Hloop; [|done].
      destruct (for_items_frame _ merged IH _ _ _ b _
                  ltac:(by rewrite lookup_insert_eq) Hloop) as [Hframe _].
      assert (h ⊆ h2) as Hsub2.
      { apply map_subseteq_spec. intros c x Hl. apply Hframe.
        - intros ->. congruence.
        - by eapply lookup_weaken. }
      by destruct ru; intros [= <- <-].
Qed.

(** X4: The merge never writes an object that exists: whatever it returns or
    raises, on whatever store (shared or cyclic references included),
    every cell of the store it started from is unchanged. *)
Theorem deep_merge_obj_writes_no_existing_object
    (fuel : nat) (base override : nat) (h h' : gmap nat obj) (r : exn + nat) :
  deep_merge_obj fuel base override h = Some (r, h') →
  (∀ a o, h !! a = Some o → h' !! a = Some o)
  ∧ (∀ a, h' !! a = None → h !! a = None).
Proof.
  intros Hrun. apply deep_merge_obj_frame in Hrun. split.
  - intros a o Hl. by eapply lookup_weaken.
  - intros a Hnone. by eapply lookup_weaken_None.
Qed.

(** X5: The dict the merge returns is a new object, and the copy is shallow:
    at a key the override lacks it holds the very reference [base] holds,
    and at a key that only the override has it holds the override's
    reference; such values are shared with the inputs, not copied
    (lines 154 and 164). *)
Theorem deep_merge_obj_shares_unmerged_values
    (fuel : nat) (base override merged : nat) (h h' : gmap nat obj)
    (b o : gmap string nat) :
  h !! base = Some (ODict b) → h !! override = Some (ODict o) →
  deep_merge_obj fuel base override h = Some (inr merged, h') →
  h !! merged = None
  ∧ ∃ m, h' !! merged = Some (ODict m)
       ∧ (∀ k, o !! k = None → m !! k = b !! k)
       ∧ (∀ k ov, o !! k = Some ov → b !! k = None → m !! k = Some ov).
Proof.
  intros Hbase Hover. destruct fuel as [|n]; [done|].
  cbn [deep_merge_obj]. rewrite Hbase.
  destruct (alloc_fresh (ODict b) h) as [Hfresh Heq].
  destruct (alloc (ODict b) h) as [new h1]. simpl in Hfresh, Heq. subst h1.
  rewrite (lookup_weaken _ _ _ _ Hover (insert_subseteq h new (ODict b) Hfresh)).
  destruct (for_items _ _ _) as [[[e|u] h2]|] eqn:Hloop; [done| |done].
  intros [= <- <-]. split; [done|].
  destruct (for_items_frame _ new (deep_merge_obj_frame n) _ _ _ b _
              ltac:(by rewrite lookup_insert_eq) Hloop)
    as (_ & m & Hm & Hother & Hnew).
  exists m. split; [done|]. split.
  - intros k Hk. apply Hother. intros ((k' & a) & -> & Hin)%list_elem_of_fmap.
    apply elem_of_map_to_list in Hin. simpl in Hk. congruence.
  - intros k ov Hk Hnone.
    apply Hnew; [by destruct u| |by apply elem_of_map_to_list|done].
    apply NoDup_fst_map_to_list.
Qed.

Lemma deep_merge_obj_writes_no_existing_object_witness :
  (∀ a o, sample_store !! a = Some o → sample_merged_store !! a = Some o)
  ∧ (∀ a, sample_merged_store !! a = None → sample_store !! a = None).
Proof.
  apply (deep_merge_obj_writes_no_existing_object 3 4 5 sample_store
           sample_merged_store (inr 6)).
  vm_compute. reflexivity.
Defined.

Lemma deep_merge_obj_shares_unmerged_values_witness :
  sample_store !! 6 = None
  ∧ ∃ m, sample_merged_store !! 6 = Some (ODict m)
       ∧ (∀ k, ({[ "cfg" := 3 ]} : gmap string nat) !! k = None →
               m !! k = ({[ "cfg" := 2; "x" := 0 ]} : gmap string nat) !! k)
       ∧ (∀ k ov, ({[ "cfg" := 3 ]} : gmap string nat) !! k = Some ov →
                  ({[ "cfg" := 2; "x" := 0 ]} : gmap string nat) !! k = None →
                  m !! k = Some ov).
Proof.
  apply (deep_merge_obj_shares_unmerged_values 3 4 5 6 sample_store
           sample_merged_store {[ "cfg" := 2; "x" := 0 ]} {[ "cfg" := 3 ]});
    vm_compute; reflexivity.
Defined.

(** ** Dict keys *)

(** Comparing two dyadic numbers at any common exponent below both gives
    the same answer. *)
Lemma dyadic_shift (m1 e1 m2 e2 e e' : Z) :
  (e' ≤ e)%Z → (e ≤ e1)%Z → (e ≤ e2)%Z →
  (m1 * 2 ^ (e1 - e) = m2 * 2 ^ (e2 - e)
   ↔ m1 * 2 ^ (e1 - e') = m2 * 2 ^ (e2 - e'))%Z.
Proof.
  intros He' He1 He2.
  replace (e1 - e')%Z with ((e1 - e) + (e - e'))%Z by lia.
  replace (e2 - e')%Z with ((e2 - e) + (e - e'))%Z by lia.
  rewrite !Z.pow_add_r by lia. rewrite !Z.mul_assoc.
  assert (0 < 2 ^ (e - e'))%Z by (apply Z.pow_pos_nonneg; lia).
  split; [by intros ->|]. intros Heq. by apply Z.mul_cancel_r in Heq; [|lia].
Qed.

Lemma number_eqb_refl (x : number) : number_eqb x x = true.
Proof. destruct x; simpl; [apply Z.eqb_refl|done..]. Qed.

Lemma number_eqb_sym (x y : number) : number_eqb x y = number_eqb y x.
Proof.
  destruct x, y; simpl; try done.
  by rewrite Z.eqb_sym, (Z.min_comm e0 e).
Qed.

Lemma number_eqb_trans (x y z : number) :
  number_eqb x y = true → number_eqb y z = true → number_eqb x z = true.
Proof.
  destruct x as [m1 e1| | |], y as [m2 e2| | |], z as [m3 e3| | |];
    simpl; try done.
  rewrite !Z.eqb_eq. intros H12 H23.
  set (e0 := Z.min e1 (Z.min e2 e3)).
  apply (dyadic_shift m1 e1 m2 e2 _ e0) in H12; [|unfold e0; lia..].
  apply (dyadic_shift m2 e2 m3 e3 _ e0) in H23; [|unfold e0; lia..].
  apply (dyadic_shift m1 e1 m3 e3 _ e0); [unfold e0; lia..|].
  congruence.
Qed.

Lemma atom_key_eqb_refl (a : atom) : atom_key_eqb a a = true.
Proof.
  unfold atom_key_eqb. destruct (number_of a) as [x|] eqn:Hx.
  - apply number_eqb_refl.
  - destruct a as [|?|?|[]|s]; try done. apply String.eqb_refl.
Qed.

Lemma atom_key_eqb_sym (a b : atom) : atom_key_eqb a b = atom_key_eqb b a.
Proof.
  unfold atom_key_eqb.
  destruct (number_of a) as [x|] eqn:Hx, (number_of b) as [y|] eqn:Hy;
    try done.
  - apply number_eqb_sym.
  - destruct a as [|?|?|[]|s], b as [|?|?|[]|t]; try done.
    apply String.eqb_sym.
Qed.

Lemma atom_key_eqb_trans (a b c : atom) :
  atom_key_eqb a b = true → atom_key_eqb b c = true → atom_key_eqb a c = true.
Proof.
  unfold atom_key_eqb.
  destruct (number_of a) as [x|] eqn:Hx, (number_of b) as [y|] eqn:Hy,
           (number_of c) as [z|] eqn:Hz; try done.
  - apply number_eqb_trans.
  - destruct a as [|?|?|[]|s], b as [|?|?|[]|t], c as [|?|?|[]|u]; try done.
    rewrite !String.eqb_eq. congruence.
Qed.

(** Keys that are equal are looked up alike. *)
Lemma atom_key_eqb_congr (a b c : atom) :
  atom_key_eqb a b = true → atom_key_eqb a c = atom_key_eqb b c.
Proof.
  intros Hab. destruct (atom_key_eqb b c) eqn:Hbc.
  - by eapply atom_key_eqb_trans.
  - destruct (atom_key_eqb a c) eqn:Hac; [|done].
    rewrite atom_key_eqb_sym in Hab.
    by rewrite (atom_key_eqb_trans _ _ _ Hab Hac) in Hbc.
Qed.

(** What [d.get(k)] finds after [d[key] = value]. *)
Lemma dict_get_set (key k : atom) (value : json) (d : list (atom * json)) :
  dict_get k (dict_set key value d)
  = if atom_key_eqb key k then Some value else dict_get k d.
Proof.
  induction d as [|[k0 v0] d IH]; simpl; [done|].
  destruct (atom_key_eqb k0 key) eqn:H0; simpl.
  - rewrite (atom_key_eqb_congr _ _ k H0).
    by destruct (atom_key_eqb key k).
  - rewrite IH. destruct (atom_key_eqb k0 k) eqn:H0k; [|done].
    destruct (atom_key_eqb key k) eqn:Hk; [|done].
    rewrite (atom_key_eqb_sym key k) in Hk.
    by rewrite (atom_key_eqb_trans _ _ _ H0k Hk) in H0.
Qed.

(** ** The taxonomy mapping *)

Ltac next_char s :=
  destruct s as [|[[] [] [] [] [] [] [] []] s]; try reflexivity.

Lemma taxonomy_mapping_cons (tag : json) (rest : list json)
    (acc : list (atom * json)) :
  taxonomy_mapping (tag :: rest) acc
  = (category <-? py_get tag "category" JNull ;;
     if is_platform_category category then
       name <-? py_getitem tag "name" ;;
       id <-? py_getitem tag "id" ;;
       key <-? py_hashable name ;;
       taxonomy_mapping rest (dict_set key id acc)
     else taxonomy_mapping rest acc).
Proof.
  cbn [taxonomy_mapping].
  destruct (py_get tag "category" JNull) as [e|category]; [reflexivity|].
  cbn [ebind]. destruct category as [[| | | |s]| |]; try reflexivity.
  unfold is_platform_category.
  do 18 next_char s.
Qed.

(** What a mapping that was built says about the first tag. *)
Lemma taxonomy_mapping_step (tag : json) (rest : list json)
    (acc m : list (atom * json)) :
  taxonomy_mapping (tag :: rest) acc = inr m →
  ∃ t, tag = JDict t
    ∧ if is_platform_category (default JNull (t !! "category")) then
        ∃ name id, t !! "name" = Some (JAtom name) ∧ t !! "id" = Some id
                   ∧ taxonomy_mapping rest (dict_set name id acc) = inr m
      else taxonomy_mapping rest acc = inr m.
Proof.
  rewrite taxonomy_mapping_cons.
  destruct tag as [a|l|t]; [done..|]. intros Hrun. exists t. split; [done|].
  simpl in Hrun. destruct (is_platform_category _); [|done].
  destruct (t !! "name") as [name|]; [|done]. simpl in Hrun.
  destruct (t !! "id") as [id|]; [|done]. simpl in Hrun.
  destruct name as [name|l|d]; [|done..]. eauto.
Qed.

Lemma is_platform_category_true (category : option json) :
  is_platform_category (default JNull category) = true →
  category = Some (JStr "PIPELINE_PLATFORM").
Proof.
  destruct category as [[[| | | |s]| |]|]; try done. simpl.
  by intros ->%String.eqb_eq.
Qed.

Lemma taxonomy_mapping_app (l1 l2 : list json) (acc m : list (atom * json)) :
  taxonomy_mapping (l1 ++ l2) acc = inr m →
  ∃ acc1, taxonomy_mapping l1 acc = inr acc1
        ∧ taxonomy_mapping l2 acc1 = inr m.
Proof.
  revert acc. induction l1 as [|tag l1 IH]; intros acc; [by eauto|].
  rewrite <- app_comm_cons, !taxonomy_mapping_cons.
  destruct (py_get tag "category" JNull) as [e|category]; [done|]. simpl.
  destruct (is_platform_category category); [|apply IH].
  destruct (py_getitem tag "name") as [e|name]; [done|]. simpl.
  destruct (py_getitem tag "id") as [e|id]; [done|]. simpl.
  destruct (py_hashable name) as [e|key]; [done|]. simpl. apply IH.
Qed.

(** Tags that are no platform tag with an equal name leave the entry of a
    key as it was. *)
Lemma taxonomy_mapping_other (key : atom) (tags : list json)
    (acc m : list (atom * json)) :
  taxonomy_mapping tags acc = inr m →
  (∀ t name, JDict t ∈ tags →
             t !! "category" = Some (JStr "PIPELINE_PLATFORM") →
             t !! "name" = Some (JAtom name) →
             atom_key_eqb name key = false) →
  dict_get key m = dict_get key acc.
Proof.
  revert acc. induction tags as [|tag tags IH]; intros acc Hrun Hother.
  { by injection Hrun as <-. }
  apply taxonomy_mapping_step in Hrun as (t & -> & Hstep).
  assert (∀ t' name, JDict t' ∈ tags →
                     t' !! "category" = Some (JStr "PIPELINE_PLATFORM") →
                     t' !! "name" = Some (JAtom name) →
                     atom_key_eqb name key = false) as Hrest.
  { intros t' name Hin. apply Hother. by right. }
  destruct (is_platform_category _) eqn:Hcat.
  - destruct Hstep as (name & id & Hname & Hid & Hrun).
    rewrite (IH _ Hrun Hrest), dict_get_set.
    rewrite (Hother t name); [done|by left| |done].
    by apply is_platform_category_true.
  - by apply IH.
Qed.

(** Whatever a built mapping holds at a key, beyond what it started with,
    comes from a platform tag with an equal name. *)
Lemma taxonomy_mapping_sound (key : atom) (id : json) (tags : list json)
    (acc m : list (atom * json)) :
  taxonomy_mapping tags acc = inr m →
  dict_get key m = Some id →
  dict_get key acc = Some id
  ∨ ∃ t name, JDict t ∈ tags
      ∧ t !! "category" = Some (JStr "PIPELINE_PLATFORM")
      ∧ t !! "name" = Some (JAtom name)
      ∧ atom_key_eqb name key = true
      ∧ t !! "id" = Some id.
Proof.
  revert acc. induction tags as [|tag tags IH]; intros acc Hrun Hget.
  { injection Hrun as <-. by left. }
  apply taxonomy_mapping_step in Hrun as (t & -> & Hstep).
  destruct (is_platform_category _) eqn:Hcat.
  - destruct Hstep as (name & id0 & Hname & Hid & Hrun).
    destruct (IH _ Hrun Hget) as [Hacc|(t' & name' & Hin & H')].
    + rewrite dict_get_set in Hacc.
      destruct (atom_key_eqb name key) eqn:Hkey; [|by left].
      injection Hacc as ->. right. exists t, name.
      split; [by left|]. split; [by apply is_platform_category_true|done].
    + right. exists t', name'. split; [by right|done].
  - destruct (IH _ Hstep Hget) as [Hacc|(t' & name' & Hin & H')]; [by left|].
    right. exists t', name'. split; [by right|done].
Qed.

(** X6: The taxonomy mapping holds platform tags only (lines 58-62, 74-79):
    when the mapping built from a taxonomy answers a lookup, the id it
    returns is the id of a tag of that taxonomy whose category is
    [PIPELINE_PLATFORM] and whose name equals the platform tag; the
    platform tag is a leaf and the id is never [null]. *)
Theorem lookup_finds_platform_tags_only
    (taxonomy : list json) (tags : list (atom * json))
    (platform_tag id : json) :
  taxonomy_mapping taxonomy [] = inr tags →
  lookup_tag tags platform_tag = inr id →
  id ≠ JNull
  ∧ ∃ key t name,
      platform_tag = JAtom key
      ∧ JDict t ∈ taxonomy
      ∧ t !! "category" = Some (JStr "PIPELINE_PLATFORM")
      ∧ t !! "name" = Some (JAtom name)
      ∧ atom_key_eqb name key = true
      ∧ t !! "id" = Some id.
Proof.
  intros Hmap Hlookup. unfold lookup_tag in Hlookup.
  destruct platform_tag as [key|l|d]; [|done..]. simpl in Hlookup.
  destruct (dict_get key tags) as [v|] eqn:Hget; [|done].
  assert (v = id ∧ id ≠ JNull) as [-> Hnull].
  { destruct v as [[| | | |]| |]; try done; by injection Hlookup as <-. }
  split; [done|].
  destruct (taxonomy_mapping_sound _ _ _ _ _ Hmap Hget)
    as [Hnil|(t & name & Hin & H')]; [done|].
  by exists key, t, name.
Qed.

(** X7: Of several platform tags with equal names the last one wins: the
    lookup returns the id of a platform tag that no later platform tag of
    an equal name follows, provided that id is not [null]. *)
Theorem lookup_returns_last_platform_tag
    (before after : list json) (t : gmap string json)
    (tags : list (atom * json)) (name key : atom) (id : json) :
  taxonomy_mapping (before ++ JDict t :: after) [] = inr tags →
  t !! "category" = Some (JStr "PIPELINE_PLATFORM") →
  t !! "name" = Some (JAtom name) → t !! "id" = Some id →
  atom_key_eqb name key = true →
  (∀ t' name', JDict t' ∈ after →
               t' !! "category" = Some (JStr "PIPELINE_PLATFORM") →
               t' !! "name" = Some (JAtom name') →
               atom_key_eqb name' key = false) →
  id ≠ JNull →
  lookup_tag tags (JAtom key) = inr id.
Proof.
  intros Hmap Hcat Hname Hid Hkey Hafter Hnull.
  apply taxonomy_mapping_app in Hmap as (acc1 & _ & Hmap).
  apply taxonomy_mapping_step in Hmap as (t0 & [= <-] & Hstep).
  rewrite Hcat in Hstep. simpl in Hstep.
  destruct Hstep as (name0 & id0 & Hname0 & Hid0 & Hmap).
  rewrite Hname in Hname0. injection Hname0 as <-.
  rewrite Hid in Hid0. injection Hid0 as <-.
  unfold lookup_tag. simpl.
  rewrite (taxonomy_mapping_other key _ _ _ Hmap Hafter), dict_get_set, Hkey.
  by destruct id as [[| | | |]| |].
Qed.

(** ** The clients: construction *)

Section ClientExtras.
Context {World : Type} `{!Collaborators World} `{!PyRuntime}.
Context (constants : module_constants).

Lemma str_truthy_false (o : option string) :
  str_truthy o = false → o = None ∨ o = Some EmptyString.
Proof.
  destruct o as [p|]; [|by left]. simpl.
  destruct (String.eqb p EmptyString) eqn:Hp; [|done].
  apply String.eqb_eq in Hp as ->. by right.
Qed.

Lemma SecretManagerClient_init_no_project (s : state World) :
  str_truthy (os_getenv "GCP_TARGET_PROJECT" (world s)) = false →
  SecretManagerClient_init None s = (inl (ValueError MsgProjectUnset), s).
Proof.
  intros Henv. unfold SecretManagerClient_init, bind, getenv. simpl.
  by destruct (str_truthy_false _ Henv) as [-> | ->].
Qed.

(** X8: Without an explicit key and without a target project neither client
    can be constructed: both constructors raise the [ValueError] of line
    10, before the secret store is asked for anything; the state is as it
    was (lines 8-10, 32, 87). *)
Theorem construction_needs_target_project (user_agent : string)
    (s : state World) :
  str_truthy (os_getenv "GCP_TARGET_PROJECT" (world s)) = false →
  DLCTaxonomyClient_init None user_agent s
  = (inl (ValueError MsgProjectUnset), s)
  ∧ DMSClient_init None s = (inl (ValueError MsgProjectUnset), s).
Proof.
  intros Henv. pose proof (SecretManagerClient_init_no_project s Henv) as Hsm.
  split.
  - unfold DLCTaxonomyClient_init, api_key_or_secret.
    by rewrite (bind_raise _ _ _ _ _ (bind_raise _ _ _ _ _ Hsm)).
  - unfold DMSClient_init, api_key_or_secret, bind at 1, getenv.
    by rewrite (bind_raise _ _ _ _ _ (bind_raise _ _ _ _ _ Hsm)).
Qed.

(** X9: A key that is passed in and is not empty is used as it is: neither the
    environment's project nor the secret store is consulted, the state is
    unchanged, and the key goes into the headers (lines 32-44, 87-94). *)
Theorem explicit_api_key_needs_no_secret (api_key user_agent : string)
    (s : state World) :
  api_key ≠ EmptyString →
  DLCTaxonomyClient_init (Some api_key) user_agent s
  = (inr {| dlc_api_key := api_key;
            dlc_user_agent := user_agent;
            dlc_headers := [("Authorization", "Bearer " +:+ api_key);
                            ("User-Agent", user_agent);
                            ("Content-Type", "application/json")];
            _taxonomy_cache := None |}, s)
  ∧ DMSClient_init (Some api_key) s
    = (inr {| is_prod :=
                bool_decide (os_getenv "GCP_TARGET_PROJECT" (world s)
                             = Some "foundations-prd-1sm9");
              dms_api_key := api_key;
              dms_headers := [("api-key", api_key);
                              ("Content-Type", "application/json")] |}, s).
Proof.
  intros Hkey. apply String.eqb_neq in Hkey.
  unfold DLCTaxonomyClient_init, DMSClient_init, api_key_or_secret,
    bind, getenv, ret.
  by rewrite !Hkey.
Qed.

(** X10: A taxonomy client that was constructed has a key that is not empty,
    sends it as a bearer token, and has its cache unset (lines 35-44). *)
Theorem taxonomy_client_has_key (api_key : option string)
    (user_agent : string) (s s' : state World) (self : DLCTaxonomyClient) :
  DLCTaxonomyClient_init api_key user_agent s = (inr self, s') →
  dlc_api_key self ≠ EmptyString
  ∧ dlc_user_agent self = user_agent
  ∧ dlc_headers self = [("Authorization", "Bearer " +:+ dlc_api_key self);
                        ("User-Agent", user_agent);
                        ("Content-Type", "application/json")]
  ∧ _taxonomy_cache self = None.
Proof.
  unfold DLCTaxonomyClient_init.
  intros (key & s1 & _ & Hrest)%bind_inr.
  destruct (String.eqb key EmptyString) eqn:Hkey; [done|].
  injection Hrest as <- _. apply String.eqb_neq in Hkey. by repeat split.
Qed.

(** X11: A document-store client that was constructed has a key that is not
    empty and sends it in the [api-key] header; it is in production mode
    exactly when [GCP_TARGET_PROJECT] was [foundations-prd-1sm9] when the
    construction began (lines 86-94). *)
Theorem document_client_has_key_and_mode (api_key : option string)
    (s s' : state World) (self : DMSClient) :
  DMSClient_init api_key s = (inr self, s') →
  dms_api_key self ≠ EmptyString
  ∧ dms_headers self = [("api-key", dms_api_key self);
                        ("Content-Type", "application/json")]
  ∧ (is_prod self = true
     ↔ os_getenv "GCP_TARGET_PROJECT" (world s) = Some "foundations-prd-1sm9").
Proof.
  unfold DMSClient_init.
  intros (target & s0 & Henv & Hrest)%bind_inr.
  injection Henv as <- <-.
  apply bind_inr in Hrest as (key & s1 & _ & Hrest).
  destruct (String.eqb key EmptyString) eqn:Hkey; [done|].
  injection Hrest as <- _. apply String.eqb_neq in Hkey. simpl.
  split; [done|]. split; [done|]. apply bool_decide_eq_true.
Qed.



(** ** The clients: requests and answers *)


(** X14: An answer of the taxonomy service with a status from 400 to 599 makes
    the lookup raise [HTTPError] with that status, whatever the tag and
    the body; the instance keeps its cache unset (lines 53-54, 71-72). *)
Theorem taxonomy_error_status_raises
    (self : DLCTaxonomyClient) (platform_tag : json) (s : state World)
    (status : Z) (body : option json) (w : World) :
  _taxonomy_cache self = None →
  requests_get (opt_str (DLC_BASE_URL constants) +:+ "/taxonomy")
    (dlc_headers self) (world s)
  = (inr {| status_code := status; body := body |}, w) →
  (400 ≤ status < 600)%Z →
  ∃ s', get_taxonomy_tag_id constants self platform_tag s
        = (inl (HTTPError status), self, s')
      ∧ world s' = w.
Proof.
  intros Hcache Hget [Hlo Hhi].
  rewrite (get_taxonomy_tag_id_unset _ _ _ _ Hcache).
  unfold fetch_taxonomy_tags, bind, call, raise_for_status.
  rewrite Hget. simpl.
  assert (((400 <=? status) && (status <? 600))%Z = true) as ->.
  { apply andb_true_intro. split; [by apply Z.leb_le|by apply Z.ltb_lt]. }
  simpl. eauto.
Qed.

(** X15: A base URI that the environment did not provide is not rejected: the
    class attributes are built from [None], and the requests go to the
    URLs [None/taxonomy] and [None/documents/get?keyed=true&json=true]
    (lines 29, 53, 83, 144). *)
Theorem unset_base_uri_is_requested (w : World) (dlc : DLCTaxonomyClient)
    (dms : DMSClient) (job_id : string) (is_prod : bool) (s : state World) :
  os_getenv "DLC_BASE_URI" w = None →
  os_getenv "DMS_BASE_URI" w = None →
  log (fetch_taxonomy_tags (load_module w) dlc s).2
  = log s ++ [HttpGet "None/taxonomy" (dlc_headers dlc)]
  ∧ log (_fetch_job_config (load_module w) dms job_id is_prod s).2
    = log s ++ [HttpPost "None/documents/get?keyed=true&json=true"
                  (search_request "JobId" (JStr job_id) "PipelineJob" is_prod)
                  (dms_headers dms)].
Proof.
  intros Hdlc Hdms. split.
  - rewrite fetch_taxonomy_tags_log. unfold load_module. simpl.
    by rewrite Hdlc.
  - rewrite fetch_job_config_log. unfold load_module. simpl.
    by rewrite Hdms.
Qed.

Lemma search_request_flags (id_type : string) (value : json)
    (document_type : string) (is_prod : bool) :
  py_get (search_request id_type value document_type is_prod)
    "includeUnreleased" JNull = inr (JBool (negb is_prod))
  ∧ py_get (search_request id_type value document_type is_prod)
      "latestOnly" JNull = inr (JBool true)
  ∧ py_get (search_request id_type value document_type is_prod)
      "documentType" JNull = inr (JStr document_type).
Proof. repeat split; vm_compute; reflexivity. Qed.

(** X16: In a resolution with a platform tag the job configuration takes
    priority over the shared one: a table name of the job configuration
    that is a truthy leaf is the model, whatever the shared configuration
    says; only when the job configuration has none is the model read from
    the shared configuration (lines 125-134). *)
Theorem job_config_takes_priority
    (self : DMSClient) (job_id : string) (is_prod : bool)
    (s s1 s2 s3 s4 : state World) (jc sc : gmap string json)
    (tag taxonomy_tag_id : json) (dlc dlc' : DLCTaxonomyClient) :
  _fetch_job_config constants self job_id is_prod s = (inr (JDict jc), s1) →
  jc !! "platformTag" = Some tag → truthy tag = true →
  DLCTaxonomyClient_init None "Foundations DBT Runner" s1 = (inr dlc, s2) →
  get_taxonomy_tag_id constants dlc tag s2 = (inr taxonomy_tag_id, dlc', s3) →
  _fetch_shared_platform_config constants self taxonomy_tag_id is_prod s3
  = (inr (JDict sc), s4) →
  merged_config_of constants self job_id is_prod s
  = (inr (JDict (deep_merge sc jc)), s4)
  ∧ (∀ name : atom,
       jc !! "foundations-table-name" = Some (JAtom name) →
       truthy (JAtom name) = true →
       _fetch_model_by_job_id constants self job_id is_prod s
       = (inr (JAtom name), s4))
  ∧ (jc !! "foundations-table-name" = None →
     _fetch_model_by_job_id constants self job_id is_prod s
     = model_of_config job_id (JDict sc) s4).
Proof.
  intros Hjob Hjc Htag Hinit Hid Hshared.
  assert (merged_config_of constants self job_id is_prod s
          = (inr (JDict (deep_merge sc jc)), s4)) as Hcfg.
  { rewrite (merged_config_with_platform_tag _ _ _ _ _ _ _ _ _ _ _ _ _
               Hjob Hjc Htag Hinit Hid).
    by rewrite (bind_value _ _ _ _ _ Hshared). }
  split; [done|].
  unfold _fetch_model_by_job_id. rewrite (bind_value _ _ _ _ _ Hcfg).
  rewrite !model_of_config_dict, deep_merge_lookup. split.
  - intros name Hname Htruthy. rewrite Hname.
    destruct (sc !! "foundations-table-name") as [[?|?|?]|];
      cbn [merged_at]; by rewrite Htruthy.
  - by intros ->.
Qed.

(** *** The requests of a resolution *)

Lemma posts_of_app (l1 l2 : list event) :
  posts_of (l1 ++ l2) = posts_of l1 ++ posts_of l2.
Proof. apply omap_app. Qed.

Lemma api_key_or_secret_posts (api_key : option string) (name : string)
    (s : state World) :
  posts_of (log (api_key_or_secret api_key name s).2) = posts_of (log s).
Proof.
  assert (posts_of (log (bind (SecretManagerClient_init None)
                           (λ sm, get_secret sm name) s).2)
          = posts_of (log s)) as Hsecret.
  { unfold bind. pose proof (SecretManagerClient_init_log None s) as Hlog.
    destruct (SecretManagerClient_init None s) as [[e|sm] s1]; simpl in *.
    - by rewrite Hlog.
    - unfold get_secret, call.
      destruct (access_secret_version _ _) as [r w]. simpl.
      rewrite posts_of_app, Hlog. simpl. by rewrite app_nil_r. }
  unfold api_key_or_secret. destruct api_key as [k|]; [|done].
  by destruct (String.eqb k EmptyString).
Qed.

Lemma DLCTaxonomyClient_init_posts (api_key : option string)
    (user_agent : string) (s : state World) :
  posts_of (log (DLCTaxonomyClient_init api_key user_agent s).2)
  = posts_of (log s).
Proof.
  unfold DLCTaxonomyClient_init, bind.
  pose proof (api_key_or_secret_posts api_key "DLC_API_KEY" s) as Hposts.
  destruct (api_key_or_secret _ _ s) as [[e|key] s1]; simpl in *; [done|].
  by destruct (String.eqb key EmptyString).
Qed.

Lemma merged_config_of_posts (self : DMSClient) (job_id : string)
    (is_prod : bool) (s s' : state World) (r : exn + json) :
  merged_config_of constants self job_id is_prod s = (r, s') →
  ∃ reqs,
    posts_of (log s') = posts_of (log s) ++ reqs
    ∧ (reqs = [(DMS_BASE_URL constants,
                search_request "JobId" (JStr job_id) "PipelineJob" is_prod,
                dms_headers self)]
       ∨ ∃ taxonomy_tag_id,
           reqs = [(DMS_BASE_URL constants,
                    search_request "JobId" (JStr job_id) "PipelineJob" is_prod,
                    dms_headers self);
                   (DMS_BASE_URL constants,
                    search_request "PipelinePlatformId" taxonomy_tag_id
                      "SharedPipelineJob" is_prod,
                    dms_headers self)]).
Proof.
  unfold merged_config_of. unfold bind at 1.
  pose proof (fetch_job_config_log constants self job_id is_prod s) as Hjob.
  destruct (_fetch_job_config constants self job_id is_prod s)
    as [[e|job_config] s1]; simpl in Hjob.
  { intros [= <- <-]. eexists. rewrite Hjob, posts_of_app. eauto. }
  unfold bind at 1, lift at 1.
  destruct (py_get job_config "platformTag" JNull) as [e|tag]; simpl.
  { intros [= <- <-]. eexists. rewrite Hjob, posts_of_app. eauto. }
  destruct (truthy tag); simpl.
  2: { unfold bind, print, ret. simpl. intros [= <- <-]. eexists. simpl.
       rewrite Hjob, !posts_of_app. simpl. rewrite app_nil_r. eauto. }
  unfold bind at 1.
  pose proof (DLCTaxonomyClient_init_posts None "Foundations DBT Runner" s1)
    as Hinit.
  destruct (DLCTaxonomyClient_init None "Foundations DBT Runner" s1)
    as [[e|dlc] s2] eqn:Hdlc; simpl in Hinit.
  { intros [= <- <-]. eexists. rewrite Hinit, Hjob, posts_of_app. eauto. }
  apply DLCTaxonomyClient_init_unset in Hdlc.
  unfold bind at 1.
  pose proof (get_taxonomy_tag_id_unset_log constants dlc tag s2 Hdlc) as Hid.
  destruct (get_taxonomy_tag_id constants dlc tag s2) as [[r' dlc'] s3].
  simpl in Hid.
  assert (posts_of (log s3)
          = posts_of (log s)
            ++ [(DMS_BASE_URL constants,
                 search_request "JobId" (JStr job_id) "PipelineJob" is_prod,
                 dms_headers self)]) as Hs3.
  { rewrite Hid, posts_of_app, Hinit, Hjob, posts_of_app. simpl.
    by rewrite app_nil_r. }
  destruct r' as [e|taxonomy_tag_id].
  { intros [= <- <-]. eauto. }
  unfold bind at 1.
  pose proof (search_documents_log constants self
                (search_request "PipelinePlatformId" taxonomy_tag_id
                   "SharedPipelineJob" is_prod)
                (MsgNoSharedConfig taxonomy_tag_id) s3) as Hshared.
  unfold _fetch_shared_platform_config.
  destruct (search_documents _ _ _ _ s3) as [[e|shared] s4]; simpl in Hshared.
  - intros [= <- <-]. eexists.
    rewrite Hshared, posts_of_app, Hs3, <- app_assoc. eauto.
  - unfold lift. intros [= <- <-]. eexists.
    rewrite Hshared, posts_of_app, Hs3, <- app_assoc. eauto.
Qed.

(** X17: Every request a top-level resolution sends to the document store goes
    to the module's URL with the client's headers, asks for the latest
    version only, and asks for unreleased documents exactly when the
    client is not in production mode; the first is the search for the
    [PipelineJob] of the job id, a second one, if any, the search for a
    [SharedPipelineJob] (lines 101, 137-144, 169-176). *)
Theorem resolution_requests
    (self : DMSClient) (job_id : string) (s s' : state World)
    (r : exn + string) :
  fetch_model_and_pool_name constants self job_id s = (r, s') →
  ∃ reqs,
    posts_of (log s') = posts_of (log s) ++ reqs
    ∧ (reqs = [(DMS_BASE_URL constants,
                search_request "JobId" (JStr job_id) "PipelineJob"
                  (is_prod self),
                dms_headers self)]
       ∨ ∃ taxonomy_tag_id,
           reqs = [(DMS_BASE_URL constants,
                    search_request "JobId" (JStr job_id) "PipelineJob"
                      (is_prod self),
                    dms_headers self);
                   (DMS_BASE_URL constants,
                    search_request "PipelinePlatformId" taxonomy_tag_id
                      "SharedPipelineJob" (is_prod self),
                    dms_headers self)])
    ∧ Forall (λ q, q.1.1 = DMS_BASE_URL constants
                   ∧ q.2 = dms_headers self
                   ∧ py_get q.1.2 "includeUnreleased" JNull
                     = inr (JBool (negb (is_prod self)))
                   ∧ py_get q.1.2 "latestOnly" JNull = inr (JBool true))
        reqs.
Proof.
  unfold fetch_model_and_pool_name, _fetch_model_by_job_id.
  unfold bind at 1. unfold bind at 1.
  destruct (merged_config_of constants self job_id (is_prod self) s)
    as [[e|cfg] s1] eqn:Hcfg;
    apply merged_config_of_posts in Hcfg as (reqs & Hlog & Hshape).
  2: pose proof (model_of_config_state job_id cfg s1) as Hstate;
     destruct (model_of_config job_id cfg s1) as [[e|model] s2];
     simpl in Hstate; subst s2.
  all: intros [= <- <-]; exists reqs; split; [done|]; split; [done|].
  all: destruct Hshape as [->|[id ->]]; repeat constructor;
    apply search_request_flags.
Qed.

End ClientExtras.

(** ** The pool name *)

Lemma str_replace_again (old new : ascii) (s : string) :
  str_replace old new (str_replace old new s) = str_replace old new s.
Proof.
  induction s as [|c s IH]; [done|]. simpl. rewrite IH. f_equal.
  destruct (Ascii.eqb c old) eqn:Hc; [|by rewrite Hc].
  by destruct (Ascii.eqb new old).
Qed.

(** X18: The pool name does not identify the job: a job id with a slash and the
    job id written with underscores instead are different job ids with the
    same pool name (line 102). *)
Theorem pool_names_collide (job_id : string) (i : nat) :
  String.get i job_id = Some "/"%char →
  str_replace "/" "_" job_id ≠ job_id
  ∧ str_replace "/" "_" (str_replace "/" "_" job_id)
    = str_replace "/" "_" job_id.
Proof.
  intros Hslash. split; [|apply str_replace_again].
  intros Heq. apply (str_replace_removes "/" "_" job_id i); [done|].
  by rewrite Heq.
Qed.

Lemma pool_names_collide_witness :
  str_replace "/" "_" "teamA/pipeline1" ≠ "teamA/pipeline1"
  ∧ str_replace "/" "_" (str_replace "/" "_" "teamA/pipeline1")
    = str_replace "/" "_" "teamA/pipeline1".
Proof. apply (pool_names_collide "teamA/pipeline1" 5). reflexivity. Defined.

(** ** Scripted runs of the further properties *)

Lemma lookup_finds_platform_tags_only_witness :
  JInt 7 ≠ JNull
  ∧ ∃ key t name,
      JStr "spark" = JAtom key
      ∧ JDict t ∈ [JDict team_spark_tag; JDict spark_tag]
      ∧ t !! "category" = Some (JStr "PIPELINE_PLATFORM")
      ∧ t !! "name" = Some (JAtom name)
      ∧ atom_key_eqb name key = true
      ∧ t !! "id" = Some (JInt 7).
Proof.
  apply (lookup_finds_platform_tags_only
           [JDict team_spark_tag; JDict spark_tag]
           [(AStr "spark", JInt 7)] (JStr "spark") (JInt 7));
    vm_compute; reflexivity.
Defined.

Lemma lookup_returns_last_platform_tag_witness :
  lookup_tag [(AStr "spark", JInt 7)] (JAtom (AStr "spark")) = inr (JInt 7).
Proof.
  apply (lookup_returns_last_platform_tag
           [JDict old_spark_tag] [JDict team_spark_tag] spark_tag
           [(AStr "spark", JInt 7)] (AStr "spark") (AStr "spark") (JInt 7));
    try (vm_compute; reflexivity); [|done].
  intros t' name' Hin%list_elem_of_singleton Hcat. injection Hin as ->.
  vm_compute in Hcat. discriminate Hcat.
Defined.

Lemma construction_needs_target_project_witness :
  DLCTaxonomyClient_init None "Foundations DBT Runner" bare_start
  = (inl (ValueError MsgProjectUnset), bare_start)
  ∧ DMSClient_init None bare_start
    = (inl (ValueError MsgProjectUnset), bare_start).
Proof.
  apply (construction_needs_target_project "Foundations DBT Runner" bare_start).
  reflexivity.
Defined.

Lemma explicit_api_key_needs_no_secret_witness :
  DLCTaxonomyClient_init (Some "dlc-key") "Foundations DBT Runner" bare_start
  = (inr sample_taxonomy_client, bare_start)
  ∧ DMSClient_init (Some "dlc-key") bare_start
    = (inr {| is_prod :=
                bool_decide (os_getenv "GCP_TARGET_PROJECT" (world bare_start)
                             = Some "foundations-prd-1sm9");
              dms_api_key := "dlc-key";
              dms_headers := [("api-key", "dlc-key");
                              ("Content-Type", "application/json")] |},
       bare_start).
Proof.
  assert ("dlc-key" ≠ EmptyString) as Hkey by done.
  exact (explicit_api_key_needs_no_secret "dlc-key" "Foundations DBT Runner"
           bare_start Hkey).
Defined.

Lemma taxonomy_client_has_key_witness :
  dlc_api_key sample_taxonomy_client ≠ EmptyString
  ∧ dlc_user_agent sample_taxonomy_client = "Foundations DBT Runner"
  ∧ dlc_headers sample_taxonomy_client
    = [("Authorization", "Bearer " +:+ dlc_api_key sample_taxonomy_client);
       ("User-Agent", "Foundations DBT Runner");
       ("Content-Type", "application/json")]
  ∧ _taxonomy_cache sample_taxonomy_client = None.
Proof.
  apply (taxonomy_client_has_key None "Foundations DBT Runner" keyed_start
           (DLCTaxonomyClient_init None "Foundations DBT Runner" keyed_start).2
           sample_taxonomy_client).
  vm_compute. reflexivity.
Defined.

Lemma document_client_has_key_and_mode_witness :
  dms_api_key {| is_prod := true; dms_api_key := "dms-key";
                 dms_headers := [("api-key", "dms-key");
                                 ("Content-Type", "application/json")] |}
  ≠ EmptyString
  ∧ dms_headers {| is_prod := true; dms_api_key := "dms-key";
                   dms_headers := [("api-key", "dms-key");
                                   ("Content-Type", "application/json")] |}
    = [("api-key", "dms-key"); ("Content-Type", "application/json")]
  ∧ (is_prod {| is_prod := true; dms_api_key := "dms-key";
                dms_headers := [("api-key", "dms-key");
                                ("Content-Type", "application/json")] |}
     = true
     ↔ os_getenv "GCP_TARGET_PROJECT" (world keyed_start)
       = Some "foundations-prd-1sm9").
Proof.
  apply (document_client_has_key_and_mode None keyed_start
           (DMSClient_init None keyed_start).2
           {| is_prod := true; dms_api_key := "dms-key";
              dms_headers := [("api-key", "dms-key");
                              ("Content-Type", "application/json")] |}).
  vm_compute. reflexivity.
Defined.



Lemma taxonomy_error_status_raises_witness :
  ∃ s', get_taxonomy_tag_id sample_constants sample_taxonomy_client
          (JStr "spark") error_start
        = (inl (HTTPError 503), sample_taxonomy_client, s')
      ∧ world s' = {| env := sample_env; secrets := sample_secrets;
                      gets := []; posts := [unavailable] |}.
Proof.
  apply (taxonomy_error_status_raises sample_constants sample_taxonomy_client
           (JStr "spark") error_start 503 None
           {| env := sample_env; secrets := sample_secrets;
              gets := []; posts := [unavailable] |});
    first [by vm_compute|lia].
Defined.

Lemma unset_base_uri_is_requested_witness :
  log (fetch_taxonomy_tags (load_module bare_world) sample_taxonomy_client
         bare_start).2
  = log bare_start ++ [HttpGet "None/taxonomy" (dlc_headers sample_taxonomy_client)]
  ∧ log (_fetch_job_config (load_module bare_world) sample_client
           "teamA/pipeline1" false bare_start).2
    = log bare_start
      ++ [HttpPost "None/documents/get?keyed=true&json=true"
            (search_request "JobId" (JStr "teamA/pipeline1") "PipelineJob" false)
            (dms_headers sample_client)].
Proof.
  apply (unset_base_uri_is_requested bare_world sample_taxonomy_client
           sample_client "teamA/pipeline1" false bare_start);
    reflexivity.
Defined.

Lemma job_config_takes_priority_witness :
  merged_config_of sample_constants sample_client "teamA/pipeline1" false
    spark_start
  = (inr (JDict (deep_merge shared_config spark_config)),
     (_fetch_shared_platform_config sample_constants sample_client (JInt 7)
        false (after_lookup spark_start)).2)
  ∧ (∀ name : atom,
       spark_config !! "foundations-table-name" = Some (JAtom name) →
       truthy (JAtom name) = true →
       _fetch_model_by_job_id sample_constants sample_client
         "teamA/pipeline1" false spark_start
       = (inr (JAtom name),
          (_fetch_shared_platform_config sample_constants sample_client
             (JInt 7) false (after_lookup spark_start)).2))
  ∧ (spark_config !! "foundations-table-name" = None →
     _fetch_model_by_job_id sample_constants sample_client "teamA/pipeline1"
       false spark_start
     = model_of_config "teamA/pipeline1" (JDict shared_config)
         (_fetch_shared_platform_config sample_constants sample_client
            (JInt 7) false (after_lookup spark_start)).2).
Proof.
  apply (job_config_takes_priority sample_constants sample_client
           "teamA/pipeline1" false spark_start
           (after_job_config spark_start) (after_client spark_start)
           (after_lookup spark_start)
           (_fetch_shared_platform_config sample_constants sample_client
              (JInt 7) false (after_lookup spark_start)).2
           spark_config shared_config (JStr "spark") (JInt 7)
           sample_taxonomy_client
           (set_taxonomy_cache sample_taxonomy_client [(AStr "spark", JInt 7)]));
    vm_compute; reflexivity.
Defined.

Lemma resolution_requests_witness :
  ∃ reqs,
    posts_of (log (fetch_model_and_pool_name sample_constants sample_client
                     "teamA/pipeline1" spark_start).2)
    = posts_of (log spark_start) ++ reqs
    ∧ (reqs = [(DMS_BASE_URL sample_constants,
                search_request "JobId" (JStr "teamA/pipeline1") "PipelineJob"
                  (is_prod sample_client),
                dms_headers sample_client)]
       ∨ ∃ taxonomy_tag_id,
           reqs = [(DMS_BASE_URL sample_constants,
                    search_request "JobId" (JStr "teamA/pipeline1")
                      "PipelineJob" (is_prod sample_client),
                    dms_headers sample_client);
                   (DMS_BASE_URL sample_constants,
                    search_request "PipelinePlatformId" taxonomy_tag_id
                      "SharedPipelineJob" (is_prod sample_client),
                    dms_headers sample_client)])
    ∧ Forall (λ q, q.1.1 = DMS_BASE_URL sample_constants
                   ∧ q.2 = dms_headers sample_client
                   ∧ py_get q.1.2 "includeUnreleased" JNull
                     = inr (JBool (negb (is_prod sample_client)))
                   ∧ py_get q.1.2 "latestOnly" JNull = inr (JBool true))
        reqs.
Proof.
  apply (resolution_requests sample_constants sample_client "teamA/pipeline1"
           spark_start
           (fetch_model_and_pool_name sample_constants sample_client
              "teamA/pipeline1" spark_start).2
           (fetch_model_and_pool_name sample_constants sample_client
              "teamA/pipeline1" spark_start).1).
  by destruct (fetch_model_and_pool_name _ _ _ _).
Defined.
